(** * FedRAG: the Federal Register client (tools/federal_register_api.py)

    A shallow embedding of [FederalRegisterAPI] and [main], and the
    properties of the pipeline: search and keyword filter, PDF text
    extraction with bounded retry, the document writer, and the two run
    modes.

    Conventions of the embedding.
    - A Python [str] is a list of Unicode code points ([pystr]); lengths
      and slices count code points, as Python does.
    - The Unicode character database (which code points above ASCII are
      alphanumeric or white space, and how they lower-case) is a table
      the source does not contain: it is the record [unicode_db], a
      section variable.  The ASCII range is written out.
    - The network, the file system and the clock are an environment
      [env] consulted with the history of effects so far; every effect
      the methods perform (requests, sleeps, file writes) is appended to
      that history.  Console output ([print]) is not modelled.
    - A document record is the JSON object of the API with its
      string-valued keys; [None] stands for an absent key. *)

From Stdlib Require Import String Ascii DecimalString.
From Stdlib Require Import List ZArith NArith Bool Arith Lia.
Import ListNotations.

Set Implicit Arguments.

(* ================================================================== *)
(** * Python strings *)

Module Py.

Definition char := N.
Definition pystr := list char.

(** An ASCII literal of the source, as code points. *)
Definition lit (s : string) : pystr :=
  map N_of_ascii (list_ascii_of_string s).

Definition nl : pystr := [10%N].
Definition hyphen : char := 45%N.

Definition str_eqb (a b : pystr) : bool :=
  if list_eq_dec N.eq_dec a b then true else false.

(** Truthiness of a [str]: non-empty. *)
Definition truthy (s : pystr) : bool :=
  match s with [] => false | _ :: _ => true end.

(** Truthiness of [d.get(k)]: present and non-empty. *)
Definition truthy_opt (o : option pystr) : bool :=
  match o with Some s => truthy s | None => false end.

(** [x or ''] for an optional string. *)
Definition or_empty (o : option pystr) : pystr :=
  match o with Some s => s | None => [] end.

(** [str(n)] for a non-negative integer. *)
Definition str_of_nat (n : nat) : pystr :=
  lit (NilEmpty.string_of_uint (Nat.to_uint n)).

(** [sep.join(parts)]. *)
Fixpoint join (sep : pystr) (parts : list pystr) : pystr :=
  match parts with
  | [] => []
  | [p] => p
  | p :: rest => p ++ sep ++ join sep rest
  end.

(** [s[:n]] for an integer [n]: a negative bound counts from the end. *)
Definition slice_to {A} (n : Z) (s : list A) : list A :=
  if (0 <=? n)%Z then firstn (Z.to_nat n) s
  else firstn (length s - Z.to_nat (- n)) s.

(** [needle in hay]: substring test. *)
Fixpoint starts_with (needle hay : pystr) : bool :=
  match needle, hay with
  | [], _ => true
  | _ :: _, [] => false
  | a :: n', b :: h' => N.eqb a b && starts_with n' h'
  end.

Fixpoint contains (needle hay : pystr) : bool :=
  starts_with needle hay ||
  match hay with
  | [] => false
  | _ :: h' => contains needle h'
  end.

(** ** Character classes *)

Definition is_ascii (c : char) : bool := (c <? 128)%N.

Definition ascii_alnum (c : char) : bool :=
  ((48 <=? c) && (c <=? 57) || (65 <=? c) && (c <=? 90)
   || (97 <=? c) && (c <=? 122))%N.

(** ASCII white space of [str.isspace]: TAB..CR, FS..US and SPACE. *)
Definition ascii_space (c : char) : bool :=
  ((9 <=? c) && (c <=? 13) || (28 <=? c) && (c <=? 32))%N.

Definition ascii_lower (c : char) : char :=
  if ((65 <=? c) && (c <=? 90))%N then (c + 32)%N else c.

(** The part of the Unicode database the source relies on, above ASCII:
    - [uni_alnum c]: [c] is alphanumeric (matched by [\w]);
    - [uni_space c]: [c] is white space (matched by [\s], stripped by
      [strip]);
    - [uni_lower s i]: the lower-casing of the code point at position
      [i] of [s] (one to three code points; it may look at the context,
      as for the final sigma). *)
Record unicode_db := {
  uni_alnum : char -> bool;
  uni_space : char -> bool;
  uni_lower : pystr -> nat -> pystr
}.

Section Unicode.
Variable U : unicode_db.

(** [\w] *)
Definition is_word (c : char) : bool :=
  if is_ascii c then ascii_alnum c || N.eqb c 95 else uni_alnum U c.

(** [\s] *)
Definition is_space (c : char) : bool :=
  if is_ascii c then ascii_space c else uni_space U c.

(** [s.lower()] *)
Fixpoint lower_from (whole : pystr) (i : nat) (rest : pystr) : pystr :=
  match rest with
  | [] => []
  | c :: r =>
      (if is_ascii c then [ascii_lower c] else uni_lower U whole i)
        ++ lower_from whole (S i) r
  end.

Definition lower (s : pystr) : pystr := lower_from s 0 s.

(** [s.strip()] *)
Fixpoint lstrip (s : pystr) : pystr :=
  match s with
  | [] => []
  | c :: r => if is_space c then lstrip r else s
  end.

Definition rstrip (s : pystr) : pystr := rev (lstrip (rev s)).
Definition strip (s : pystr) : pystr := rstrip (lstrip s).

(** [re.sub(r'[^\w\s-]', '', s)]: every character outside the class is
    deleted. *)
Definition keep_char (c : char) : bool :=
  is_word c || is_space c || N.eqb c hyphen.

Definition strip_unsafe (s : pystr) : pystr := filter keep_char s.

(** [re.sub(r'[-\s]+', '-', s)]: every maximal run of hyphens and white
    space becomes one hyphen.  [in_run] tells that the previous
    character belonged to the run being replaced. *)
Definition is_sep (c : char) : bool := N.eqb c hyphen || is_space c.

Fixpoint collapse_from (in_run : bool) (s : pystr) : pystr :=
  match s with
  | [] => []
  | c :: r =>
      if is_sep c
      then (if in_run then collapse_from true r
            else hyphen :: collapse_from true r)
      else c :: collapse_from false r
  end.

Definition collapse (s : pystr) : pystr := collapse_from false s.

End Unicode.

(** A database with nothing above ASCII: enough to run the definitions
    on ASCII text. *)
Definition ascii_db : unicode_db :=
  {| uni_alnum := fun _ => false;
     uni_space := fun _ => false;
     uni_lower := fun s i => match nth_error s i with
                             | Some c => [c] | None => [] end |}.

End Py.

Import Py.

(* ================================================================== *)
(** * Data model *)

(** One element of [agencies]; only its ['name'] key is read. *)
Record agency := { agency_name : option pystr }.

(** A document record: one element of the ['results'] array.  Each field
    is the string under the key of that name, [None] when the key is
    absent (the key ['type'] is [doc_type] here).  Where the source reads
    a key with [.get(k)] alone or with [or ''], a JSON [null] behaves as
    an absent key.  The key ['significant'] is requested from the API but
    never read. *)
Record document := {
  title : option pystr;
  abstract : option pystr;
  html_url : option pystr;
  pdf_url : option pystr;
  publication_date : option pystr;
  agencies : option (list agency);
  document_number : option pystr;
  doc_type : option pystr
}.

(** The JSON object answered by [documents.json]: its ['results'] key, and
    whether it has any other key (an object with no key at all is falsy). *)
Record api_json := {
  json_results : option (list document);
  json_other_keys : bool
}.

Definition json_truthy (d : api_json) : bool :=
  match json_results d with Some _ => true | None => json_other_keys d end.

(** ** The environment *)

(** What [session.get(...)], [raise_for_status()] and [json()] do for a
    metadata request. *)
Inductive api_reply :=
  | ApiTransportError            (* session.get raises *)
  | ApiHttpError                 (* raise_for_status raises *)
  | ApiBadJson                   (* response.json raises *)
  | ApiJson (data : api_json).

(** What [page.extract_text()] does for one page. *)
Inductive page_text :=
  | ExtractRaises
  | ExtractNone
  | ExtractText (s : pystr).

(** What the download of a PDF and [pdfplumber.open] do. *)
Inductive pdf_reply :=
  | PdfTransportError            (* session.get raises *)
  | PdfHttpError                 (* raise_for_status raises *)
  | PdfUnreadable                (* pdfplumber.open raises *)
  | PdfPages (pages : list page_text).

(** The effects of the client, in the order they happen. *)
Inductive event :=
  | EvMkdir (dir : pystr) (ok : bool)
  | EvApiGet (term : pystr) (per_page : Z)
  | EvPdfGet (url : pystr)
  | EvSleep (seconds : nat)
  | EvWrite (dir filename body : pystr) (ok : bool).

Definition history := list event.

(** The world outside the process, as a function of what has happened so
    far: the replies of the two endpoints, whether creating the output
    directory and writing a file succeed, and the formatted local time
    ([datetime.now().strftime('%Y-%m-%d %H:%M:%S')]). *)
Record env := {
  mkdir_ok : history -> pystr -> bool;
  api_reply_of : history -> pystr -> Z -> api_reply;
  pdf_reply_of : history -> pystr -> pdf_reply;
  write_ok : history -> pystr -> pystr -> pystr -> bool;
  now : history -> pystr
}.

(** ** Effectful computations: state passing over the history *)

Definition M (A : Type) : Type := history -> A * history.

Definition ret {A} (a : A) : M A := fun h => (a, h).

Definition bind {A B} (m : M A) (k : A -> M B) : M B :=
  fun h => let (a, h') := m h in k a h'.

Definition emit (e : event) : M unit := fun h => (tt, h ++ [e]).

Declare Scope py_scope.
Delimit Scope py_scope with py.
Notation "x <- m ;; k" := (bind m (fun x => k))
  (at level 61, m at next level, right associativity) : py_scope.
Notation "m ;;; k" := (bind m (fun _ => k))
  (at level 61, right associativity) : py_scope.
Open Scope py_scope.

(** [time.sleep(n)] *)
Definition sleep (n : nat) : M unit := emit (EvSleep n).

(** [if c: m] *)
Definition when (c : bool) (m : M unit) : M unit :=
  if c then m else ret tt.

(** The result of a [try] body. *)
Inductive outcome (A : Type) :=
  | Raised
  | Returned (a : A).
Arguments Raised {A}.
Arguments Returned {A} a.

(** [d.get(k, default)] *)
Definition get_default (o : option pystr) (default : pystr) : pystr :=
  match o with Some s => s | None => default end.

(** [self.max_docs] and [self.output_dir]; [api_base] and [web_base] are
    constants. *)
Record client := {
  output_dir : pystr;
  max_docs : Z
}.

Definition web_base : pystr := lit "https://www.federalregister.gov".

(** The insertion-ordered dict [all_documents]. *)
Definition dict := list (pystr * document).

Definition dict_mem (k : pystr) (d : dict) : bool :=
  existsb (fun kv => str_eqb (fst kv) k) d.

Definition dict_values (d : dict) : list document := map snd d.

(* ================================================================== *)
(** * The client: [FederalRegisterAPI] *)

Section Client.
Variable U : unicode_db.
Variable E : env.

(** ** [api_request] *)

(** The body of the [try]: get, [raise_for_status], [json]. *)
Definition api_try (r : api_reply) : outcome api_json :=
  match r with
  | ApiJson data => Returned data
  | ApiTransportError | ApiHttpError | ApiBadJson => Raised
  end.

(** [api_request('documents.json', params)]: of [params] only the term
    and the page size vary. *)
Definition api_request (term : pystr) (per_page : Z) : M (option api_json) :=
  fun h =>
    let r := api_reply_of E h term per_page in
    let h' := h ++ [EvApiGet term per_page] in
    match api_try r with
    | Returned data => (Some data, h')
    | Raised => (None, h')              (* except Exception: return None *)
    end.

(** ** [download_pdf] *)

(** [f"--- Page {page_num} ---"] *)
Definition page_marker (page_num : nat) : pystr :=
  lit "--- Page " ++ str_of_nat page_num ++ lit " ---".

(** The loop [for page_num, page in enumerate(pdf.pages, 1)], appending to
    [text_content]; an exception of [extract_text] leaves the loop. *)
Fixpoint extract_loop (page_num : nat) (pages : list page_text)
    (text_content : list pystr) : outcome (list pystr) :=
  match pages with
  | [] => Returned text_content
  | page :: rest =>
      match page with
      | ExtractRaises => Raised
      | ExtractNone => extract_loop (S page_num) rest text_content
      | ExtractText page_text =>
          if truthy page_text
          then extract_loop (S page_num) rest
                 (text_content ++ [page_marker page_num; strip U page_text; []])
          else extract_loop (S page_num) rest text_content
      end
  end.

(** The body of the [try] of one attempt, after the request was sent. *)
Definition attempt_try (r : pdf_reply) : outcome (option pystr) :=
  match r with
  | PdfTransportError | PdfHttpError | PdfUnreadable => Raised
  | PdfPages pages =>
      match extract_loop 1 pages [] with
      | Raised => Raised
      | Returned text_content =>
          match text_content with
          | _ :: _ => Returned (Some (join nl text_content))
          | [] => Returned None
          end
      end
  end.

Definition pdf_get (url : pystr) : M pdf_reply :=
  fun h => (pdf_reply_of E h url, h ++ [EvPdfGet url]).

(** [for attempt in range(max_retries)]: [todo] iterations remain and the
    loop variable is [attempt]. *)
Fixpoint download_attempts (url : pystr) (max_retries : Z) (todo : nat)
    (attempt : Z) : M (option pystr) :=
  match todo with
  | O => ret None
  | S todo' =>
      r <- pdf_get url ;;
      match attempt_try r with
      | Returned result => ret result
      | Raised =>
          when (attempt <? max_retries - 1)%Z (sleep 2) ;;;
          download_attempts url max_retries todo' (attempt + 1)%Z
      end
  end.

Definition download_pdf (url : option pystr) (max_retries : Z)
    : M (option pystr) :=
  match url with
  | None => ret None
  | Some u =>
      if negb (truthy u) then ret None
      else download_attempts u max_retries (Z.to_nat max_retries) 0%Z
  end.

(** ** [search_documents] *)

Definition ai_keywords : list pystr :=
  map lit
    ["artificial intelligence"; "machine learning"; "neural network";
     "deep learning"; "ai safety"; "ai governance"; "algorithmic";
     "automated decision"; "ai system"; "ai model"; "ai technology"]%string.

(** [content], and [any(keyword in content for keyword in ai_keywords)]. *)
Definition content_of (doc : document) : pystr :=
  let title := lower U (or_empty (title doc)) in
  let abstract := lower U (or_empty (abstract doc)) in
  title ++ lit " " ++ abstract.

Definition ai_related (doc : document) : bool :=
  existsb (fun keyword => contains keyword (content_of doc)) ai_keywords.

(** The loop [for doc in results], appending to [pdf_results]. *)
Fixpoint filter_loop (results pdf_results : list document)
    : list document :=
  match results with
  | [] => pdf_results
  | doc :: rest =>
      if negb (truthy_opt (pdf_url doc)) then filter_loop rest pdf_results
      else if ai_related doc then filter_loop rest (pdf_results ++ [doc])
      else filter_loop rest pdf_results
  end.

Variable self : client.

Definition search_documents (term : pystr) : M (list document) :=
  data <- api_request term (Z.min (max_docs self) 100) ;;
  match data with
  | None => ret []
  | Some data =>
      if negb (json_truthy data) then ret []
      else
        let results := match json_results data with
                       | Some rs => rs | None => [] end in
        let pdf_results := filter_loop results [] in
        ret (slice_to (max_docs self) pdf_results)
  end.

(** ** [save_document] *)

Definition divider : pystr := repeat 61%N 80.

(** The safe file name. *)
Definition safe_title_of (title : pystr) : pystr :=
  let safe_title := strip_unsafe U title in
  let safe_title := collapse U safe_title in
  firstn 50 safe_title.

Definition filename_of (date title : pystr) : pystr :=
  date ++ lit "-" ++ safe_title_of title ++ lit ".txt".

(** The text written to the file; [stamp] is the formatted time of the
    call. *)
Definition document_text_of (doc : document) (pdf_content : option pystr)
    (stamp : pystr) : pystr :=
  let title := get_default (title doc) (lit "Untitled Document") in
  let date := get_default (publication_date doc) (lit "unknown") in
  let agencies := match agencies doc with Some l => l | None => [] end in
  let agency_names :=
    join (lit ", ")
      (map (fun a => get_default (agency_name a) (lit "Unknown")) agencies) in
  let html_url := get_default (html_url doc) [] in
  let pdf_url := get_default (pdf_url doc) [] in
  let doc_number := get_default (document_number doc) [] in
  let doc_type := get_default (doc_type doc) (lit "Unknown") in
  let document_text :=
    lit "Title: " ++ title ++ nl ++
    lit "Date: " ++ date ++ nl ++
    lit "Document Number: " ++ doc_number ++ nl ++
    lit "Type: " ++ doc_type ++ nl ++
    lit "Agencies: " ++ agency_names ++ nl ++
    lit "HTML URL: " ++ web_base ++ html_url ++ nl ++
    lit "PDF URL: " ++ pdf_url ++ nl ++
    lit "Downloaded: " ++ stamp ++ nl ++
    divider ++ nl ++
    nl in
  let document_text :=
    match abstract doc with
    | Some a =>
        if truthy a
        then (document_text ++ (lit "ABSTRACT:" ++ nl ++ a ++ nl ++ nl))
               ++ (divider ++ nl ++ nl)
        else document_text
    | None => document_text
    end in
  match pdf_content with
  | Some text =>
      if truthy text
      then (document_text ++ (lit "FULL DOCUMENT CONTENT:" ++ nl ++ nl))
             ++ text
      else document_text
             ++ (lit "Note: Full content available via PDF URL above." ++ nl)
  | None =>
      document_text
        ++ (lit "Note: Full content available via PDF URL above." ++ nl)
  end.

Definition save_document (doc : document) (pdf_content : option pystr)
    : M bool :=
  fun h =>
    let title := get_default (title doc) (lit "Untitled Document") in
    let date := get_default (publication_date doc) (lit "unknown") in
    let filename := filename_of date title in
    let document_text := document_text_of doc pdf_content (now E h) in
    (* try: open, write; except: return False *)
    let ok := write_ok E h (output_dir self) filename document_text in
    (ok, h ++ [EvWrite (output_dir self) filename document_text ok]).

(** ** The processing loop of [run] and [run_comprehensive_search]

    Both methods contain the same loop over their documents
    ([for i, doc in enumerate(documents, 1)]); it is written once. *)
Fixpoint process_loop (i total : nat) (docs : list document)
    (success_count : nat) : M nat :=
  match docs with
  | [] => ret success_count
  | doc :: rest =>
      pdf_content <-
        (if truthy_opt (pdf_url doc) then download_pdf (pdf_url doc) 3
         else ret None) ;;
      saved <- save_document doc pdf_content ;;
      let success_count :=
        if saved then S success_count else success_count in
      when (i <? total) (sleep 2) ;;;
      process_loop (S i) total rest success_count
  end.

Definition process (docs : list document) : M bool :=
  match docs with
  | [] => ret false                   (* if not documents: return False *)
  | _ :: _ =>
      success_count <- process_loop 1 (length docs) docs 0 ;;
      ret (0 <? success_count)
  end.

(** ** [run] *)

Definition run (search_term : pystr) : M bool :=
  documents <- search_documents search_term ;;
  process documents.

(** ** [run_comprehensive_search] *)

Definition search_terms : list pystr :=
  map lit
    ["artificial intelligence"; "machine learning"; "AI safety";
     "AI governance"; "algorithmic accountability";
     "automated decision making"; "neural networks";
     "deep learning"]%string.

(** The loop [for doc in documents] filling [all_documents]. *)
Fixpoint merge_loop (documents : list document) (all_documents : dict)
    : dict :=
  match documents with
  | [] => all_documents
  | doc :: rest =>
      match document_number doc with
      | Some doc_id =>
          if truthy doc_id && negb (dict_mem doc_id all_documents)
          then merge_loop rest (all_documents ++ [(doc_id, doc)])
          else merge_loop rest all_documents
      | None => merge_loop rest all_documents
      end
  end.

(** The loop [for term in search_terms]. *)
Fixpoint terms_loop (terms : list pystr) (all_documents : dict) : M dict :=
  match terms with
  | [] => ret all_documents
  | term :: rest =>
      documents <- search_documents term ;;
      let all_documents := merge_loop documents all_documents in
      sleep 1 ;;;
      terms_loop rest all_documents
  end.

Definition run_comprehensive_search : M bool :=
  all_documents <- terms_loop search_terms [] ;;
  let unique_documents := dict_values all_documents in
  process unique_documents.

End Client.

(** * [main] *)

(** The parsed command line. *)
Record args := {
  arg_term : pystr;
  arg_output : pystr;
  arg_max_docs : Z;
  arg_comprehensive : bool
}.

(** [main] after [parse_args]: the constructor creates the output
    directory (an error there ends the process with a traceback and exit
    code 1), then one of the two runs decides the exit code. *)
Definition main (U : unicode_db) (E : env) (a : args) : M Z :=
  fun h =>
    let made := mkdir_ok E h (arg_output a) in
    let h1 := h ++ [EvMkdir (arg_output a) made] in
    if negb made then (1%Z, h1)
    else
      let client := {| output_dir := arg_output a;
                       max_docs := arg_max_docs a |} in
      (success <-
         (if arg_comprehensive a then run_comprehensive_search U E client
          else run U E client (arg_term a)) ;;
       ret (if success then 0%Z else 1%Z)) h1.

(* ================================================================== *)
(** * What the specification says, for comparison with the code *)

Section Described.
Variable U : unicode_db.

(** ** Search (section 4.2): the post-filter and the truncation *)

(** A record qualifies when its PDF URL is non-empty and its lower-cased
    title and abstract contain one of the keywords. *)
Definition qualifies (doc : document) : bool :=
  truthy_opt (pdf_url doc) && ai_related U doc.

Definition search_described (results : list document) (max_results : nat)
    : list document :=
  firstn max_results (filter qualifies results).

(** ** Extracted text (section 4.3) *)

(** A page yields text when [extract_text] returns a non-empty string. *)
Definition yields_text (page : page_text) : bool :=
  match page with
  | ExtractText s => truthy s
  | ExtractNone | ExtractRaises => false
  end.

(** The three lines of a surviving page: the marker, the trimmed text and
    an empty line. *)
Definition page_block (np : nat * page_text) : list pystr :=
  match snd np with
  | ExtractText s => [page_marker (fst np); strip U s; []]
  | ExtractNone | ExtractRaises => []
  end.

(** The lines of the surviving pages, numbering the pages from [n]. *)
Definition blocks_from (n : nat) (pages : list page_text) : list pystr :=
  concat (map page_block
            (filter (fun np => yields_text (snd np))
                    (combine (seq n (length pages)) pages))).

Definition text_described (pages : list page_text) : pystr :=
  join nl (blocks_from 1 pages).

(** Some page makes [extract_text] raise. *)
Definition page_raises (page : page_text) : bool :=
  match page with
  | ExtractRaises => true
  | ExtractNone | ExtractText _ => false
  end.

End Described.

(** ** The file body (section 4.4) *)

(** Lines, each ended by a newline. *)
Definition unlines (lines : list pystr) : pystr :=
  concat (map (fun l => l ++ nl) lines).

Definition agency_names_of (doc : document) : pystr :=
  join (lit ", ")
    (map (fun a => get_default (agency_name a) (lit "Unknown"))
         (match agencies doc with Some l => l | None => [] end)).

(** The header block, up to the label of the time stamp. *)
Definition header_before_stamp (doc : document) : pystr :=
  unlines
    [ lit "Title: " ++ get_default (title doc) (lit "Untitled Document");
      lit "Date: " ++ get_default (publication_date doc) (lit "unknown");
      lit "Document Number: " ++ get_default (document_number doc) [];
      lit "Type: " ++ get_default (doc_type doc) (lit "Unknown");
      lit "Agencies: " ++ agency_names_of doc;
      lit "HTML URL: " ++ web_base ++ get_default (html_url doc) [];
      lit "PDF URL: " ++ get_default (pdf_url doc) [] ]
  ++ lit "Downloaded: ".

(** The header block: eight labelled lines, the divider, an empty line. *)
Definition header_block (doc : document) (stamp : pystr) : pystr :=
  header_before_stamp doc ++ stamp ++ nl ++ unlines [divider; []].

(** The abstract under its heading, closed by a divider; nothing when the
    record has no abstract. *)
Definition abstract_section (doc : document) : pystr :=
  if truthy_opt (abstract doc)
  then unlines [lit "ABSTRACT:"; or_empty (abstract doc); []; divider; []]
  else [].

(** The extracted text under its heading, or the note. *)
Definition content_section (pdf_content : option pystr) : pystr :=
  if truthy_opt pdf_content
  then unlines [lit "FULL DOCUMENT CONTENT:"; []] ++ or_empty pdf_content
  else unlines [lit "Note: Full content available via PDF URL above."].

(** ** Bounded retry (section 4.3) *)

(** The history after [k] attempts that raised, each followed by the
    2-second wait. *)
Definition after_failures (h : history) (url : pystr) (k : nat) : history :=
  h ++ concat (repeat [EvPdfGet url; EvSleep 2] k).

(** The requests for PDFs in a history. *)
Definition pdf_requests (h : history) : nat :=
  length
    (filter (fun e => match e with EvPdfGet _ => true | _ => false end) h).

(** An environment whose first reply to a PDF request is a document with
    one page and no text layer, and whose later replies are a document
    with one page of text. *)
Definition scanned_then_text : env :=
  {| mkdir_ok := fun _ _ => true;
     api_reply_of := fun _ _ _ => ApiTransportError;
     pdf_reply_of := fun h _ =>
       match h with
       | [] => PdfPages [ExtractText []]
       | _ :: _ => PdfPages [ExtractText (lit "Final rule")]
       end;
     write_ok := fun _ _ _ _ => true;
     now := fun _ => lit "2024-01-02 03:04:05" |}.

(** An environment whose first two replies to a PDF request are transport
    errors; afterwards the PDF has three pages, the second one without
    text. *)
Definition three_pages : list page_text :=
  [ExtractText (lit "  Final rule "); ExtractNone;
   ExtractText (lit "Page three")].

Definition fails_twice : env :=
  {| mkdir_ok := fun _ _ => true;
     api_reply_of := fun _ _ _ => ApiTransportError;
     pdf_reply_of := fun h _ =>
       if length h <? 4 then PdfTransportError else PdfPages three_pages;
     write_ok := fun _ _ _ _ => true;
     now := fun _ => lit "2024-01-02 03:04:05" |}.

Definition sample_url : pystr := lit "https://www.govinfo.gov/2024-00001.pdf".

(** ** Sample records and replies *)

Definition sample_doc (t : string) (pdf number : option pystr) : document :=
  {| title := Some (lit t);
     abstract := None;
     html_url := Some (lit "/documents/2024/01/02/sample");
     pdf_url := pdf;
     publication_date := Some (lit "2024-01-02");
     agencies := Some [ {| agency_name := Some (lit "Commerce Department") |};
                        {| agency_name := None |} ];
     document_number := number;
     doc_type := Some (lit "Notice") |}.

Definition doc_upper : document :=
  sample_doc "Request for Comment on Artificial Intelligence"
    (Some sample_url) (Some (lit "2024-00001")).

Definition doc_lower : document :=
  sample_doc "Use of artificial intelligence in lending"
    (Some sample_url) (Some (lit "2024-00002")).

Definition doc_no_pdf : document :=
  sample_doc "Machine Learning in Aviation" None (Some (lit "2024-00003")).

Definition doc_off_topic : document :=
  sample_doc "Fisheries of the Northeastern United States"
    (Some sample_url) (Some (lit "2024-00004")).

Definition doc_third : document :=
  sample_doc "Deep Learning Accelerators; Export Controls"
    (Some sample_url) (Some (lit "2024-00005")).

(** An environment whose API always answers the same five records. *)
Definition five_results : env :=
  {| mkdir_ok := fun _ _ => true;
     api_reply_of := fun _ _ _ =>
       ApiJson {| json_results :=
                    Some [doc_upper; doc_no_pdf; doc_off_topic; doc_lower;
                          doc_third];
                  json_other_keys := true |};
     pdf_reply_of := fun _ _ => PdfPages three_pages;
     write_ok := fun _ _ _ _ => true;
     now := fun _ => lit "2024-01-02 03:04:05" |}.

(** An environment whose API is unreachable. *)
Definition api_down : env :=
  {| mkdir_ok := fun _ _ => true;
     api_reply_of := fun _ _ _ => ApiHttpError;
     pdf_reply_of := fun _ _ => PdfTransportError;
     write_ok := fun _ _ _ _ => true;
     now := fun _ => lit "2024-01-02 03:04:05" |}.

Definition sample_client (n : Z) : client :=
  {| output_dir := lit "corpus/federal-register/ai-documents";
     max_docs := n |}.

(** ** Deduplication (section 4.5) *)

(** The merge of the result sequences of the terms, in term order. *)
Definition collect_from (all_documents : dict)
    (results : list (list document)) : dict :=
  fold_left (fun all_documents documents =>
               merge_loop documents all_documents) results all_documents.

Definition collect (results : list (list document)) : dict :=
  collect_from [] results.

(** A record carries the identifier [id]. *)
Definition has_id (id : pystr) (doc : document) : bool :=
  match document_number doc with
  | Some n => str_eqb n id
  | None => false
  end.

(** The entry of a key, as [all_documents[k]] would find it. *)
Definition dict_get (k : pystr) (d : dict) : option (pystr * document) :=
  find (fun kv => str_eqb (fst kv) k) d.

(** The result sequences of the searches of a comprehensive run started
    at history [h], one per term, in term order. *)
Fixpoint term_results (U : unicode_db) (E : env) (self : client)
    (terms : list pystr) (h : history) : list (list document) :=
  match terms with
  | [] => []
  | term :: rest =>
      let (documents, h') := search_documents U E self term h in
      documents :: term_results U E self rest (h' ++ [EvSleep 1])
  end.

(** An environment whose API answers the term "artificial intelligence"
    with one version of document 2024-00001 and every other term with a
    later version of it, under the same number. *)
Definition doc_revised : document :=
  sample_doc "Request for Comment on Artificial Intelligence; Correction"
    (Some sample_url) (Some (lit "2024-00001")).

Definition revised_later : env :=
  {| mkdir_ok := fun _ _ => true;
     api_reply_of := fun _ term _ =>
       ApiJson {| json_results :=
                    Some (if str_eqb term (lit "artificial intelligence")
                          then [doc_upper; doc_lower]
                          else [doc_third; doc_revised]);
                  json_other_keys := true |};
     pdf_reply_of := fun _ _ => PdfPages three_pages;
     write_ok := fun _ _ _ _ => true;
     now := fun _ => lit "2024-01-02 03:04:05" |}.

(** The invariant of [all_documents]: no key twice, every key non-empty
    and equal to the document number of its record. *)
Definition keyed (d : dict) : Prop :=
  NoDup (map fst d)
  /\ Forall (fun kv => truthy (fst kv) = true
                       /\ document_number (snd kv) = Some (fst kv)) d.

(** ** Events *)

(** What happened after [h] in a history [h'] that extends it. *)
Definition events_since (h h' : history) : list event :=
  skipn (length h) h'.

(** An event of the processing of the record [doc]: a request for its
    PDF, a 2-second wait, or the write of its file. *)
Definition handles (U : unicode_db) (self : client) (doc : document)
    (e : event) : Prop :=
  match e with
  | EvPdfGet url => pdf_url doc = Some url
  | EvSleep seconds => seconds = 2
  | EvWrite dir filename body _ =>
      dir = output_dir self
      /\ filename
         = filename_of U (get_default (publication_date doc) (lit "unknown"))
             (get_default (title doc) (lit "Untitled Document"))
      /\ exists pdf_content stamp,
           body = document_text_of doc pdf_content stamp
  | EvMkdir _ _ | EvApiGet _ _ => False
  end.

(** An event of the term loop: an API request or a 1-second wait. *)
Definition quiet (e : event) : Prop :=
  match e with
  | EvApiGet _ _ | EvSleep 1 => True
  | _ => False
  end.

(** An environment whose API answers, for every term, a record without
    document number, a record with an empty one and a numbered record. *)
Definition doc_unnumbered : document :=
  sample_doc "AI Safety Institute; Notice of Meeting" (Some sample_url) None.

Definition doc_empty_number : document :=
  sample_doc "Machine Learning Model Risk" (Some sample_url) (Some []).

Definition some_unnumbered : env :=
  {| mkdir_ok := fun _ _ => true;
     api_reply_of := fun _ _ _ =>
       ApiJson {| json_results :=
                    Some [doc_unnumbered; doc_empty_number; doc_upper];
                  json_other_keys := true |};
     pdf_reply_of := fun _ _ => PdfPages three_pages;
     write_ok := fun _ _ _ _ => true;
     now := fun _ => lit "2024-01-02 03:04:05" |}.

(** ** Successful writes in a history *)

Definition is_saved (e : event) : bool :=
  match e with
  | EvWrite _ _ _ ok => ok
  | _ => false
  end.

Definition saved (evs : list event) : nat :=
  length (filter is_saved evs).

(** ** File names *)

(** A character allowed in the stem of a file name: a word character or
    the hyphen. *)
Definition filename_char (U : unicode_db) (c : char) : bool :=
  is_word U c || N.eqb c hyphen.

(** A character of an ISO date ([2024-01-02]): a decimal digit or the
    hyphen. *)
Definition is_date_char (c : char) : bool :=
  ((48 <=? c) && (c <=? 57))%N || N.eqb c hyphen.

(** The value of [date] in [save_document]: the publication date of the
    record, an ISO date string, or the default ['unknown'] of
    [document.get('publication_date', 'unknown')]. *)
Definition is_publication_date (date : pystr) : Prop :=
  forallb is_date_char date = true \/ date = lit "unknown".

(** No two hyphens in a row. *)
Fixpoint single_hyphens (s : pystr) : bool :=
  match s with
  | a :: (b :: _) as r =>
      negb (N.eqb a hyphen && N.eqb b hyphen) && single_hyphens r
  | _ => true
  end.

(** ** Files written and requests sent *)

(** The directory and the file name of the write events, in order. *)
Definition written (evs : list event) : list (pystr * pystr) :=
  flat_map (fun e => match e with
                     | EvWrite dir filename _ _ => [(dir, filename)]
                     | _ => []
                     end) evs.

(** Where [save_document] writes the record [doc]. *)
Definition target (U : unicode_db) (self : client) (doc : document)
    : pystr * pystr :=
  (output_dir self,
   filename_of U (get_default (publication_date doc) (lit "unknown"))
     (get_default (title doc) (lit "Untitled Document"))).

(** One API request and a 1-second wait per term. *)
Definition term_events (per_page : Z) (terms : list pystr) : list event :=
  flat_map (fun term => [EvApiGet term per_page; EvSleep 1]) terms.

(** A record whose title ends with "Machine" and whose abstract starts
    with "Learning". *)
Definition doc_split : document :=
  {| title := Some (lit "Safety Standards for the Washing Machine");
     abstract := Some (lit "Learning from recent recalls, the Commission");
     html_url := None;
     pdf_url := Some sample_url;
     publication_date := Some (lit "2024-01-02");
     agencies := None;
     document_number := Some (lit "2024-00009");
     doc_type := Some (lit "Rule") |}.

(* ================================================================== *)
(** * Properties *)

Unset Implicit Arguments.

(** ** Running the definitions on small inputs *)

Example lit_ab : lit "ab" = [97; 98]%N.
Proof. reflexivity. Qed.

Example str_of_nat_12 : str_of_nat 12 = lit "12".
Proof. reflexivity. Qed.

Example join_3 : join (lit ", ") [lit "a"; lit "b"; lit "c"] = lit "a, b, c".
Proof. reflexivity. Qed.

Example collapse_ex :
  collapse ascii_db (lit "a - b--c  d") = lit "a-b-c-d".
Proof. reflexivity. Qed.

Example strip_ex : strip ascii_db (lit "  a b ") = lit "a b".
Proof. reflexivity. Qed.

Example slice_neg : slice_to (-1) [1; 2; 3] = [1; 2].
Proof. reflexivity. Qed.

Example filename_ex :
  filename_of ascii_db (lit "2024-01-02")
    (lit "Rules on Artificial Intelligence: a/b (c)")
  = lit "2024-01-02-Rules-on-Artificial-Intelligence-ab-c.txt".
Proof. reflexivity. Qed.

Example extraction_ex :
  attempt_try ascii_db (PdfPages three_pages)
  = Returned (Some (join nl [lit "--- Page 1 ---"; lit "Final rule"; [];
                             lit "--- Page 3 ---"; lit "Page three"; []])).
Proof. reflexivity. Qed.

Example search_ex :
  fst (search_documents ascii_db five_results (sample_client 10)
         (lit "AI safety") [])
  = [doc_upper; doc_lower; doc_third].
Proof. vm_compute. reflexivity. Qed.

Example body_ex :
  document_text_of doc_upper None (lit "2024-01-02 03:04:05")
  = unlines
      [ lit "Title: Request for Comment on Artificial Intelligence";
        lit "Date: 2024-01-02";
        lit "Document Number: 2024-00001";
        lit "Type: Notice";
        lit "Agencies: Commerce Department, Unknown";
        lit "HTML URL: https://www.federalregister.gov/documents/2024/01/02/sample";
        lit "PDF URL: https://www.govinfo.gov/2024-00001.pdf";
        lit "Downloaded: 2024-01-02 03:04:05";
        repeat 61%N 80;
        [];
        lit "Note: Full content available via PDF URL above." ].
Proof. vm_compute. reflexivity. Qed.

(** With [--max-docs 1] and five results, three of them qualifying, one
    document is written and the exit code is 0. *)
Example main_one_document :
  let r := main ascii_db five_results
             {| arg_term := lit "artificial intelligence";
                arg_output := lit "corpus";
                arg_max_docs := 1;
                arg_comprehensive := false |} [] in
  fst r = 0%Z
  /\ map (fun e => match e with
                   | EvWrite _ filename _ ok => Some (filename, ok)
                   | _ => None
                   end) (snd r)
     = [None; None; None;
        Some (lit "2024-01-02-Request-for-Comment-on-Artificial-Intelligence.txt",
              true)].
Proof. vm_compute. split; reflexivity. Qed.

(** With an unreachable API nothing is written and the exit code is 1. *)
Example main_api_down :
  main ascii_db api_down
    {| arg_term := lit "AI safety"; arg_output := lit "corpus";
       arg_max_docs := 10; arg_comprehensive := false |} []
  = (1%Z, [EvMkdir (lit "corpus") true; EvApiGet (lit "AI safety") 10]).
Proof. vm_compute. reflexivity. Qed.

Example comprehensive_ex :
  dict_values
    (fst (terms_loop ascii_db revised_later (sample_client 10)
            search_terms [] []))
  = [doc_upper; doc_lower; doc_third].
Proof. vm_compute. reflexivity. Qed.

(** ** The safe file name *)

Section Filename.
Variable U : unicode_db.

Lemma hyphen_not_space : is_space U hyphen = false.
Proof. reflexivity. Qed.

Lemma hyphen_filename_char : filename_char U hyphen = true.
Proof. reflexivity. Qed.

(** A kept character that is not a separator is a word character. *)
Lemma kept_not_sep_word (c : char) :
  keep_char U c = true -> is_sep U c = false -> is_word U c = true.
Proof.
  unfold keep_char, is_sep. intros K S.
  apply orb_false_iff in S as [Hh Hs].
  rewrite Hh, Hs, !orb_false_r in K. exact K.
Qed.

Lemma collapse_from_chars (s : pystr) : forall in_run,
  Forall (fun c => keep_char U c = true) s ->
  Forall (fun c => filename_char U c = true) (collapse_from U in_run s).
Proof.
  induction s as [|c r IH]; intros in_run Hs; simpl; [constructor|].
  inversion Hs as [|? ? Hc Hr]; subst.
  destruct (is_sep U c) eqn:S.
  - destruct in_run; [now apply IH|].
    constructor; [apply hyphen_filename_char | now apply IH].
  - constructor; [|now apply IH].
    unfold filename_char. now rewrite (kept_not_sep_word c Hc S).
Qed.

Lemma collapse_from_no_sep_head (s : pystr) :
  match collapse_from U true s with
  | [] => True
  | c :: _ => c <> hyphen
  end.
Proof.
  induction s as [|c r IH]; simpl; [exact I|].
  destruct (is_sep U c) eqn:S; [exact IH|].
  intros ->. unfold is_sep in S. simpl in S. discriminate.
Qed.

Lemma single_hyphens_cons (a b : char) (t : pystr) :
  single_hyphens (a :: b :: t)
  = negb (N.eqb a hyphen && N.eqb b hyphen) && single_hyphens (b :: t).
Proof. reflexivity. Qed.

Lemma collapse_from_single_hyphens (s : pystr) : forall in_run,
  single_hyphens (collapse_from U in_run s) = true.
Proof.
  induction s as [|c r IH]; intros in_run; [reflexivity|].
  cbn [collapse_from].
  destruct (is_sep U c) eqn:S.
  - destruct in_run; [apply IH|].
    pose proof (collapse_from_no_sep_head r) as Hd.
    pose proof (IH true) as Hr.
    destruct (collapse_from U true r) as [|d t]; [reflexivity|].
    rewrite single_hyphens_cons, Hr, andb_true_r.
    apply N.eqb_neq in Hd. now rewrite Hd, andb_false_r.
  - pose proof (IH false) as Hr.
    destruct (collapse_from U false r) as [|d t]; [reflexivity|].
    rewrite single_hyphens_cons, Hr, andb_true_r.
    assert (Hc : N.eqb c hyphen = false).
    { unfold is_sep in S. now apply orb_false_iff in S as [-> _]. }
    now rewrite Hc.
Qed.

(** What is not a separator goes through [collapse] untouched. *)
Lemma collapse_from_keeps (s : pystr) : forall in_run,
  filter (fun c => negb (is_sep U c)) (collapse_from U in_run s)
  = filter (fun c => negb (is_sep U c)) s.
Proof.
  induction s as [|c r IH]; intros in_run; [reflexivity|].
  cbn [collapse_from]. destruct (is_sep U c) eqn:S.
  - destruct in_run; cbn [filter]; rewrite ?S; cbn [negb]; [apply IH|].
    change (is_sep U hyphen) with true. cbn [negb]. apply IH.
  - cbn [filter]. rewrite S. cbn [negb]. f_equal. apply IH.
Qed.

Lemma single_hyphens_firstn (n : nat) : forall s,
  single_hyphens s = true -> single_hyphens (firstn n s) = true.
Proof.
  induction n as [|n IH]; intros s Hs; [reflexivity|].
  destruct s as [|a [|b t]]; [reflexivity| now destruct n |].
  rewrite single_hyphens_cons in Hs. apply andb_true_iff in Hs as [Hab Ht].
  specialize (IH (b :: t) Ht).
  destruct n as [|n']; [reflexivity|].
  change (firstn (S (S n')) (a :: b :: t))
    with (a :: b :: firstn n' t).
  change (firstn (S n') (b :: t)) with (b :: firstn n' t) in IH.
  now rewrite single_hyphens_cons, Hab, IH.
Qed.

Lemma Forall_firstn {A} (P : A -> Prop) (n : nat) : forall l,
  Forall P l -> Forall P (firstn n l).
Proof.
  induction n as [|n IH]; intros l Hl; [constructor|].
  destruct Hl; cbn [firstn]; constructor; auto.
Qed.

Lemma safe_title_chars (title : pystr) :
  Forall (fun c => filename_char U c = true) (safe_title_of U title).
Proof.
  unfold safe_title_of, collapse, strip_unsafe.
  apply Forall_firstn, collapse_from_chars.
  apply Forall_forall. intros c Hc. now apply filter_In in Hc.
Qed.

Lemma safe_title_length (title : pystr) :
  length (safe_title_of U title) <= 50.
Proof. unfold safe_title_of. apply firstn_le_length. Qed.

End Filename.

Lemma forallb_Forall {A} (f : A -> bool) (l : list A) :
  Forall (fun x => f x = true) l -> forallb f l = true.
Proof. intros H. apply forallb_forall. now apply Forall_forall. Qed.

Lemma length_lit_txt : length (lit ".txt") = 4.
Proof. reflexivity. Qed.

(** The shape of the file name for any string in the place of the date:
    the sanitized title consists of word characters and single hyphens,
    and the stem of the name has only word characters and hyphens exactly
    when the string before the title has. *)
Lemma filename_of_shape (U : unicode_db) (date title : pystr) :
  let safe_title := safe_title_of U title in
  filename_of U date title = date ++ [hyphen] ++ safe_title ++ lit ".txt"
  /\ safe_title = firstn 50 (collapse U (filter (keep_char U) title))
  /\ forallb (filename_char U) safe_title = true
  /\ single_hyphens safe_title = true
  /\ forallb (filename_char U) (date ++ [hyphen] ++ safe_title)
     = forallb (filename_char U) date
  /\ length (filename_of U date title) <= length date + 1 + 50 + 4.
Proof.
  pose proof (safe_title_chars U title) as Hc.
  pose proof (safe_title_length U title) as Hl.
  apply forallb_Forall in Hc.
  cbv zeta. repeat split.
  - exact Hc.
  - unfold safe_title_of, collapse.
    apply single_hyphens_firstn, collapse_from_single_hyphens.
  - rewrite forallb_app. cbn [app forallb].
    rewrite Hc, hyphen_filename_char. now rewrite andb_true_r.
  - unfold filename_of. rewrite !length_app, length_lit_txt.
    change (length (lit "-")) with 1. lia.
Qed.

Lemma date_char_filename_char (U : unicode_db) (c : char) :
  is_date_char c = true -> filename_char U c = true.
Proof.
  unfold is_date_char, filename_char. intros H.
  apply orb_true_iff in H as [Hd | Hh]; [|now rewrite Hh, orb_true_r].
  apply andb_true_iff in Hd as [Lo Hi].
  apply N.leb_le in Lo. apply N.leb_le in Hi.
  unfold is_word, is_ascii, ascii_alnum.
  assert (Hascii : (c <? 128)%N = true) by (apply N.ltb_lt; lia).
  assert (Hlo : (48 <=? c)%N = true) by (apply N.leb_le; lia).
  assert (Hhi : (c <=? 57)%N = true) by (apply N.leb_le; lia).
  now rewrite Hascii, Hlo, Hhi.
Qed.

Lemma publication_date_chars (U : unicode_db) (date : pystr) :
  is_publication_date date -> forallb (filename_char U) date = true.
Proof.
  intros [Hiso | ->]; [|reflexivity].
  apply forallb_forall. intros c Hin.
  rewrite forallb_forall in Hiso.
  apply date_char_filename_char. now apply Hiso.
Qed.

(** C4.  For every title and every publication date (an ISO date string,
    or the default "unknown"), the file name is the date, a hyphen, the
    sanitized title and [.txt], where the sanitized title is the title
    without the characters outside word characters, white space and
    hyphen, with each run of white space and hyphens collapsed to one
    hyphen, cut to 50 characters.  Hence the name without its [.txt]
    suffix contains only word characters and hyphens, and the name is at
    most [len(date)+1+50+4] characters long. *)
Theorem filename_of_publication_date (U : unicode_db) (date title : pystr) :
  is_publication_date date ->
  let safe_title := safe_title_of U title in
  filename_of U date title = date ++ [hyphen] ++ safe_title ++ lit ".txt"
  /\ safe_title = firstn 50 (collapse U (filter (keep_char U) title))
  /\ forallb (filename_char U) safe_title = true
  /\ single_hyphens safe_title = true
  /\ forallb (filename_char U) (date ++ [hyphen] ++ safe_title) = true
  /\ length (filename_of U date title) <= length date + 1 + 50 + 4.
Proof.
  intros Hdate.
  destruct (filename_of_shape U date title)
    as (Hname & Hsafe & Hchars & Hsingle & Hstem & Hlen).
  cbv zeta. repeat split; try assumption.
  rewrite Hstem. now apply publication_date_chars.
Qed.

Lemma filename_of_publication_date_witness :
  is_publication_date (lit "2024-01-02")
  /\ filename_of ascii_db (lit "2024-01-02")
       (lit "Rules on Artificial Intelligence: a/b (c)")
     = lit "2024-01-02" ++ [hyphen]
         ++ lit "Rules-on-Artificial-Intelligence-ab-c" ++ lit ".txt"
  /\ forallb (filename_char ascii_db)
       (lit "2024-01-02" ++ [hyphen]
          ++ lit "Rules-on-Artificial-Intelligence-ab-c") = true
  /\ length (filename_of ascii_db (lit "2024-01-02")
               (lit "Rules on Artificial Intelligence: a/b (c)"))
     <= length (lit "2024-01-02") + 1 + 50 + 4.
Proof.
  assert (Hdate : is_publication_date (lit "2024-01-02"))
    by (left; reflexivity).
  destruct (filename_of_publication_date ascii_db (lit "2024-01-02")
              (lit "Rules on Artificial Intelligence: a/b (c)") Hdate)
    as (Hname & _ & _ & _ & Hstem & Hlen).
  split; [exact Hdate|]. split; [exact Hname|].
  split; [exact Hstem | exact Hlen].
Defined.

(** ** PDF extraction: one attempt *)

Section Extraction.
Variable U : unicode_db.

Lemma blocks_from_cons (n : nat) (page : page_text) (rest : list page_text) :
  blocks_from U n (page :: rest)
  = (if yields_text page then page_block U (n, page) else [])
      ++ blocks_from U (S n) rest.
Proof.
  unfold blocks_from. cbn [length seq combine filter snd].
  destruct (yields_text page); reflexivity.
Qed.

(** Without a raising page the loop returns the blocks of the pages that
    yield text, after what was accumulated. *)
Lemma extract_loop_returns (pages : list page_text) : forall n acc,
  existsb page_raises pages = false ->
  extract_loop U n pages acc = Returned (acc ++ blocks_from U n pages).
Proof.
  induction pages as [|page rest IH]; intros n acc Hno.
  - cbn. now rewrite app_nil_r.
  - rewrite blocks_from_cons. cbn [extract_loop].
    cbn [existsb] in Hno. apply orb_false_iff in Hno as [Hp Hrest].
    destruct page as [| |s]; [discriminate| |].
    + cbn [yields_text app]. now apply IH.
    + cbn [yields_text]. destruct (truthy s).
      * rewrite IH by assumption. now rewrite <- app_assoc.
      * cbn [app]. now apply IH.
Qed.

(** A raising page makes the whole attempt raise. *)
Lemma extract_loop_raises (pages : list page_text) : forall n acc,
  existsb page_raises pages = true -> extract_loop U n pages acc = Raised.
Proof.
  induction pages as [|page rest IH]; intros n acc Hin; [discriminate|].
  cbn [extract_loop]. cbn [existsb] in Hin.
  destruct page as [| |s]; [reflexivity| |]; cbn [page_raises orb] in Hin.
  - now apply IH.
  - destruct (truthy s); now apply IH.
Qed.

(** Some block exists exactly when some page yields text. *)
Lemma blocks_from_nil_iff (pages : list page_text) : forall n,
  blocks_from U n pages = [] <-> existsb yields_text pages = false.
Proof.
  induction pages as [|page rest IH]; intros n; [now split|].
  rewrite blocks_from_cons. cbn [existsb].
  destruct page as [| |s]; cbn [yields_text orb app]; try apply IH.
  destruct (truthy s) eqn:T; cbn [orb app]; [|apply IH].
  unfold page_block. cbn [snd fst]. split; discriminate.
Qed.

(** The three results of the [try] body of an attempt. *)
Lemma attempt_try_pages (pages : list page_text) :
  attempt_try U (PdfPages pages) =
    if existsb page_raises pages then Raised
    else if existsb yields_text pages
         then Returned (Some (text_described U pages))
         else Returned None.
Proof.
  unfold attempt_try. destruct (existsb page_raises pages) eqn:Hr.
  - now rewrite extract_loop_raises.
  - rewrite extract_loop_returns by assumption. cbn [app].
    unfold text_described.
    destruct (blocks_from_nil_iff pages 1) as [B1 B2].
    destruct (existsb yields_text pages) eqn:Ex.
    + destruct (blocks_from U 1 pages) eqn:B; [|reflexivity].
      specialize (B1 eq_refl). discriminate.
    + now rewrite (B2 eq_refl).
Qed.

End Extraction.

(** ** PDF extraction: the retry loop *)

Section Retry.
Variable U : unicode_db.
Variable E : env.
Variable url : pystr.
Variable max_retries : Z.

(** One iteration of the loop, unfolded. *)
Lemma download_attempts_step (todo : nat) (attempt : Z) (h : history) :
  download_attempts U E url max_retries (S todo) attempt h =
    match attempt_try U (pdf_reply_of E h url) with
    | Returned result => (result, h ++ [EvPdfGet url])
    | Raised =>
        download_attempts U E url max_retries todo (attempt + 1)%Z
          (if (attempt <? max_retries - 1)%Z
           then (h ++ [EvPdfGet url]) ++ [EvSleep 2]
           else h ++ [EvPdfGet url])
    end.
Proof.
  cbn [download_attempts]. unfold bind, pdf_get.
  destruct (attempt_try U (pdf_reply_of E h url)); [|reflexivity].
  unfold when, sleep, emit, ret.
  destruct (attempt <? max_retries - 1)%Z; reflexivity.
Qed.

Lemma after_failures_0 (h : history) : after_failures h url 0 = h.
Proof. unfold after_failures. cbn. apply app_nil_r. Qed.

Lemma after_failures_S (h : history) (k : nat) :
  after_failures ((h ++ [EvPdfGet url]) ++ [EvSleep 2]) url k
  = after_failures h url (S k).
Proof.
  unfold after_failures. cbn [repeat concat].
  now rewrite <- !app_assoc.
Qed.

(** The first attempt that does not raise ends the call with its result:
    [k] attempts raised before it, each followed by the wait. *)
Lemma download_attempts_first_return (todo : nat) :
  forall (attempt : Z) (h : history) (k : nat) (result : option pystr),
  (attempt + Z.of_nat todo = max_retries)%Z ->
  k < todo ->
  (forall i, i < k ->
     attempt_try U (pdf_reply_of E (after_failures h url i) url) = Raised) ->
  attempt_try U (pdf_reply_of E (after_failures h url k) url)
    = Returned result ->
  download_attempts U E url max_retries todo attempt h
  = (result, after_failures h url k ++ [EvPdfGet url]).
Proof.
  induction todo as [|todo IH]; intros attempt h k result Hinv Hk Hfail Hret;
    [lia|].
  rewrite download_attempts_step.
  destruct k as [|k].
  - rewrite after_failures_0 in *. now rewrite Hret.
  - pose proof (Hfail 0 ltac:(lia)) as H0. rewrite after_failures_0 in H0.
    rewrite H0.
    assert (Hlt : (attempt <? max_retries - 1)%Z = true)
      by (apply Z.ltb_lt; lia).
    rewrite Hlt. rewrite <- after_failures_S.
    apply IH; [lia | lia | | now rewrite after_failures_S].
    intros i Hi. rewrite after_failures_S. apply Hfail. lia.
Qed.

(** When every attempt raises the loop ends after [todo] attempts, with
    no wait after the last one. *)
Lemma download_attempts_exhausted (todo : nat) :
  forall (attempt : Z) (h : history),
  (attempt + Z.of_nat todo = max_retries)%Z ->
  (forall i, i < todo ->
     attempt_try U (pdf_reply_of E (after_failures h url i) url) = Raised) ->
  download_attempts U E url max_retries todo attempt h
  = (None, match todo with
           | O => h
           | S m => after_failures h url m ++ [EvPdfGet url]
           end).
Proof.
  induction todo as [|todo IH]; intros attempt h Hinv Hfail; [reflexivity|].
  rewrite download_attempts_step.
  pose proof (Hfail 0 ltac:(lia)) as H0. rewrite after_failures_0 in H0.
  rewrite H0. destruct todo as [|m].
  - destruct (attempt <? max_retries - 1)%Z eqn:Hlt.
    + apply Z.ltb_lt in Hlt. lia.
    + now rewrite after_failures_0.
  - assert (Hlt : (attempt <? max_retries - 1)%Z = true)
      by (apply Z.ltb_lt; lia).
    rewrite Hlt, IH; [now rewrite after_failures_S | lia |].
    intros i Hi. rewrite after_failures_S. apply Hfail. lia.
Qed.

Lemma pdf_requests_app (h1 h2 : history) :
  pdf_requests (h1 ++ h2) = pdf_requests h1 + pdf_requests h2.
Proof. unfold pdf_requests. now rewrite filter_app, length_app. Qed.

(** Never more requests than iterations. *)
Lemma download_attempts_bound (todo : nat) :
  forall (attempt : Z) (h : history),
  pdf_requests (snd (download_attempts U E url max_retries todo attempt h))
  <= pdf_requests h + todo.
Proof.
  induction todo as [|todo IH]; intros attempt h;
    [cbn [download_attempts]; unfold ret; cbn [snd]; lia|].
  rewrite download_attempts_step.
  destruct (attempt_try U (pdf_reply_of E h url)).
  - etransitivity; [apply IH|].
    destruct (attempt <? max_retries - 1)%Z;
      rewrite !pdf_requests_app; cbn; lia.
  - cbn [snd]. rewrite pdf_requests_app. cbn. lia.
Qed.

End Retry.

Lemma download_pdf_truthy (U : unicode_db) (E : env) (url : pystr)
    (max_retries : Z) :
  truthy url = true ->
  download_pdf U E (Some url) max_retries
  = download_attempts U E url max_retries (Z.to_nat max_retries) 0%Z.
Proof. intros T. unfold download_pdf. now rewrite T. Qed.

(** C1 (as amended).  For a non-empty URL: the first attempt that does
    not raise ends the call with its own result, be it the text or
    nothing; every attempt that raised before it was followed by a
    2-second wait.  In particular an attempt whose PDF parses but has no
    page with text returns nothing at once, without wait or retry.  When
    all [max_retries] attempts raise, the call returns nothing after
    exactly that many requests, without a wait after the last.  In no case
    are more than [max_retries] requests sent. *)
Theorem download_pdf_bounded_retry (U : unicode_db) (E : env)
    (url : pystr) (max_retries : Z) (h : history) :
  truthy url = true ->
  let raised i :=
    attempt_try U (pdf_reply_of E (after_failures h url i) url) = Raised in
  (forall k result,
     k < Z.to_nat max_retries ->
     (forall i, i < k -> raised i) ->
     attempt_try U (pdf_reply_of E (after_failures h url k) url)
       = Returned result ->
     download_pdf U E (Some url) max_retries h
     = (result, after_failures h url k ++ [EvPdfGet url]))
  /\ (forall k pages,
        k < Z.to_nat max_retries ->
        (forall i, i < k -> raised i) ->
        pdf_reply_of E (after_failures h url k) url = PdfPages pages ->
        existsb page_raises pages = false ->
        existsb yields_text pages = false ->
        download_pdf U E (Some url) max_retries h
        = (None, after_failures h url k ++ [EvPdfGet url]))
  /\ ((forall i, i < Z.to_nat max_retries -> raised i) ->
      download_pdf U E (Some url) max_retries h
      = (None, match Z.to_nat max_retries with
               | O => h
               | S m => after_failures h url m ++ [EvPdfGet url]
               end))
  /\ pdf_requests (snd (download_pdf U E (Some url) max_retries h))
     <= pdf_requests h + Z.to_nat max_retries.
Proof.
  intros T raised. rewrite (download_pdf_truthy U E url max_retries T).
  destruct (Z_lt_le_dec max_retries 0) as [Hneg|Hpos].
  - (* a negative count: [range] is empty *)
    assert (Z0 : Z.to_nat max_retries = 0) by lia. rewrite Z0.
    repeat split;
      [intros; lia | intros; lia
      | apply (download_attempts_bound U E url max_retries 0)].
  - assert (Hinv : (0 + Z.of_nat (Z.to_nat max_retries) = max_retries)%Z)
      by lia.
    repeat split.
    + intros k result Hk Hfail Hret.
      now apply download_attempts_first_return.
    + intros k pages Hk Hfail Hreply Hno Hnone.
      apply download_attempts_first_return; auto.
      now rewrite Hreply, attempt_try_pages, Hno, Hnone.
    + intros Hfail. now apply download_attempts_exhausted.
    + apply download_attempts_bound.
Qed.

Lemma download_pdf_bounded_retry_witness :
  truthy sample_url = true
  /\ download_pdf ascii_db fails_twice (Some sample_url) 3 []
     = (Some (join nl [lit "--- Page 1 ---"; lit "Final rule"; [];
                       lit "--- Page 3 ---"; lit "Page three"; []]),
        [EvPdfGet sample_url; EvSleep 2; EvPdfGet sample_url; EvSleep 2;
         EvPdfGet sample_url]).
Proof.
  split; [reflexivity|].
  destruct (download_pdf_bounded_retry ascii_db fails_twice sample_url 3 []
              eq_refl) as [First _].
  apply (First 2).
  - vm_compute. lia.
  - intros i Hi. destruct i as [|[|i]]; [reflexivity | reflexivity | lia].
  - reflexivity.
Defined.

(** C1 as stated fails: an attempt that downloads and parses but finds no
    text ends the call at once.  Here the first reply is a PDF without
    text and [max_retries] is 3: one request is sent, no wait follows and
    nothing is returned, although the next reply would have had text. *)
Lemma download_pdf_does_not_retry_without_text :
  attempt_try ascii_db (pdf_reply_of scanned_then_text [] sample_url)
    = Returned None
  /\ download_pdf ascii_db scanned_then_text (Some sample_url) 3 []
     = (None, [EvPdfGet sample_url])
  /\ attempt_try ascii_db
       (pdf_reply_of scanned_then_text
          [EvPdfGet sample_url; EvSleep 2] sample_url)
     = Returned (Some (join nl [lit "--- Page 1 ---"; lit "Final rule"; []])).
Proof. vm_compute. repeat split. Qed.

(** C6.  When an attempt is reached (the earlier ones raised) whose PDF
    parses without error and has a page with text, the call returns the
    text described by the specification: for each page with non-empty
    text, in page order, the marker line with the page's 1-based position
    among all pages, the trimmed text and an empty line, all joined by
    newlines; pages without text contribute nothing. *)
Theorem extracted_text_format (U : unicode_db) (E : env) (url : pystr)
    (max_retries : Z) (h : history) (k : nat) (pages : list page_text) :
  truthy url = true ->
  k < Z.to_nat max_retries ->
  (forall i, i < k ->
     attempt_try U (pdf_reply_of E (after_failures h url i) url) = Raised) ->
  pdf_reply_of E (after_failures h url k) url = PdfPages pages ->
  existsb page_raises pages = false ->
  existsb yields_text pages = true ->
  download_pdf U E (Some url) max_retries h
  = (Some (text_described U pages),
     after_failures h url k ++ [EvPdfGet url])
  /\ text_described U pages
     = join nl
         (concat
            (map (fun np => match snd np with
                            | ExtractText s =>
                                [lit "--- Page " ++ str_of_nat (fst np)
                                   ++ lit " ---";
                                 strip U s; []]
                            | _ => []
                            end)
               (filter (fun np => yields_text (snd np))
                  (combine (seq 1 (length pages)) pages)))).
Proof.
  intros T Hk Hfail Hreply Hno Hyes. split; [|reflexivity].
  destruct (download_pdf_bounded_retry U E url max_retries h T) as [First _].
  apply First; auto.
  rewrite Hreply, attempt_try_pages, Hno, Hyes. reflexivity.
Qed.

Lemma extracted_text_format_witness :
  download_pdf ascii_db fails_twice (Some sample_url) 3 []
  = (Some (text_described ascii_db three_pages),
     after_failures [] sample_url 2 ++ [EvPdfGet sample_url])
  /\ text_described ascii_db three_pages
     = join nl [lit "--- Page 1 ---"; lit "Final rule"; [];
                lit "--- Page 3 ---"; lit "Page three"; []].
Proof.
  split; [|reflexivity].
  apply (extracted_text_format ascii_db fails_twice sample_url 3 [] 2
           three_pages).
  - reflexivity.
  - vm_compute. lia.
  - intros i Hi. destruct i as [|[|i]]; [reflexivity | reflexivity | lia].
  - reflexivity.
  - reflexivity.
  - reflexivity.
Defined.

(** ** Substrings and lower-casing *)

Lemma starts_with_app (k rest : pystr) : starts_with k (k ++ rest) = true.
Proof.
  induction k as [|a k IH]; [reflexivity|].
  cbn [app starts_with]. now rewrite N.eqb_refl, IH.
Qed.

Lemma contains_infix (k pre post : pystr) :
  contains k (pre ++ k ++ post) = true.
Proof.
  induction pre as [|a pre IH].
  - cbn [app]. destruct (k ++ post) eqn:Eq.
    + destruct k; [reflexivity | discriminate].
    + rewrite <- Eq. destruct (k ++ post) eqn:Eq2; [congruence|].
      cbn [contains]. rewrite <- Eq2, starts_with_app. reflexivity.
  - cbn [app contains]. rewrite IH. apply orb_true_r.
Qed.

Section Lowering.
Variable U : unicode_db.

Lemma lower_from_app (whole l1 l2 : pystr) : forall i,
  lower_from U whole i (l1 ++ l2)
  = lower_from U whole i l1 ++ lower_from U whole (i + length l1) l2.
Proof.
  induction l1 as [|c l1 IH]; intros i.
  - cbn. now rewrite Nat.add_0_r.
  - cbn [app lower_from length]. rewrite IH, <- app_assoc.
    now rewrite Nat.add_succ_r.
Qed.

Lemma lower_from_ascii (whole s : pystr) : forall i,
  forallb is_ascii s = true ->
  lower_from U whole i s = map ascii_lower s.
Proof.
  induction s as [|c s IH]; intros i Hs; [reflexivity|].
  cbn [forallb] in Hs. apply andb_true_iff in Hs as [Hc Hs].
  cbn [lower_from map]. rewrite Hc, IH by assumption. reflexivity.
Qed.

(** An ASCII stretch of a string lower-cases on its own, whatever
    surrounds it. *)
Lemma lower_infix (pre mid post : pystr) :
  forallb is_ascii mid = true ->
  exists pre' post',
    lower U (pre ++ mid ++ post) = pre' ++ map ascii_lower mid ++ post'.
Proof.
  intros Hmid. unfold lower.
  rewrite lower_from_app, lower_from_app, (lower_from_ascii _ mid) by assumption.
  eauto.
Qed.

(** A record whose title contains, in any letter case, a stretch that
    lower-cases to a keyword is AI-related. *)
Lemma ai_related_title (doc : document) (keyword pre mid post : pystr) :
  In keyword ai_keywords ->
  forallb is_ascii mid = true ->
  map ascii_lower mid = keyword ->
  title doc = Some (pre ++ mid ++ post) ->
  ai_related U doc = true.
Proof.
  intros Hin Hascii Hlow Htitle. unfold ai_related.
  apply existsb_exists. exists keyword. split; [exact Hin|].
  unfold content_of. rewrite Htitle. cbn [or_empty].
  destruct (lower_infix pre mid post Hascii) as (pre' & post' & ->).
  rewrite Hlow, <- !app_assoc. apply contains_infix.
Qed.

End Lowering.

(** ** Search *)

Section Search.
Variable U : unicode_db.

Lemma filter_loop_filter (results : list document) : forall pdf_results,
  filter_loop U results pdf_results
  = pdf_results ++ filter (qualifies U) results.
Proof.
  induction results as [|doc rest IH]; intros acc.
  - cbn. now rewrite app_nil_r.
  - cbn [filter_loop filter].
    replace (qualifies U doc)
      with (truthy_opt (pdf_url doc) && ai_related U doc) by reflexivity.
    destruct (truthy_opt (pdf_url doc)); cbn [negb andb]; [|apply IH].
    destruct (ai_related U doc); [|apply IH].
    rewrite IH, <- app_assoc. reflexivity.
Qed.

Lemma slice_to_nonneg {A} (n : Z) (l : list A) :
  (0 <= n)%Z -> slice_to n l = firstn (Z.to_nat n) l.
Proof.
  intros Hn. unfold slice_to.
  destruct (0 <=? n)%Z eqn:Le; [reflexivity|].
  apply Z.leb_gt in Le. lia.
Qed.

Variable E : env.
Variable self : client.

(** What [search_documents] does for each reply of the API. *)
Lemma search_documents_cases (term : pystr) (h : history) :
  search_documents U E self term h =
    (match api_reply_of E h term (Z.min (max_docs self) 100) with
     | ApiJson data =>
         slice_to (max_docs self)
           (filter (qualifies U)
              (match json_results data with Some rs => rs | None => [] end))
     | ApiTransportError | ApiHttpError | ApiBadJson => []
     end,
     h ++ [EvApiGet term (Z.min (max_docs self) 100)]).
Proof.
  unfold search_documents, bind, api_request.
  destruct (api_reply_of E h term (Z.min (max_docs self) 100)) as [| | |data];
    cbn [api_try]; try reflexivity.
  unfold json_truthy. destruct (json_results data) as [rs|].
  - cbn [negb]. unfold ret. now rewrite filter_loop_filter.
  - destruct (json_other_keys data); cbn [negb]; unfold ret.
    + now rewrite filter_loop_filter.
    + cbn [filter]. unfold slice_to.
      destruct (0 <=? max_docs self)%Z; now rewrite firstn_nil.
Qed.

End Search.

(** C3.  With a non-negative [max_docs], and whatever result sequence the
    API answers, [search_documents] returns the records that have a
    non-empty PDF URL and whose lower-cased title and abstract (joined by
    a space) contain a keyword, in their original order, cut to the first
    [max_docs].  The match ignores letter case: a title containing
    "Artificial Intelligence" or "artificial intelligence" qualifies. *)
Theorem search_documents_filters (U : unicode_db) (E : env) (self : client)
    (term : pystr) (h : history) (data : api_json) :
  (0 <= max_docs self)%Z ->
  api_reply_of E h term (Z.min (max_docs self) 100) = ApiJson data ->
  let results :=
    match json_results data with Some rs => rs | None => [] end in
  let found := fst (search_documents U E self term h) in
  found = search_described U results (Z.to_nat (max_docs self))
  /\ found
     = firstn (Z.to_nat (max_docs self))
         (filter
            (fun doc =>
               truthy_opt (pdf_url doc)
               && existsb
                    (fun keyword =>
                       contains keyword
                         (lower U (or_empty (title doc)) ++ lit " "
                            ++ lower U (or_empty (abstract doc))))
                    ai_keywords)
            results)
  /\ (Z.of_nat (length found) <= max_docs self)%Z
  /\ (forall doc pre post,
        truthy_opt (pdf_url doc) = true ->
        title doc = Some (pre ++ lit "Artificial Intelligence" ++ post)
        \/ title doc = Some (pre ++ lit "artificial intelligence" ++ post) ->
        qualifies U doc = true).
Proof.
  intros Hn Hreply results found.
  assert (Hfound : found
                   = search_described U results (Z.to_nat (max_docs self))).
  { unfold found. rewrite search_documents_cases, Hreply. cbn [fst].
    now rewrite slice_to_nonneg. }
  repeat split.
  - exact Hfound.
  - exact Hfound.
  - rewrite Hfound. unfold search_described.
    pose proof (firstn_le_length (Z.to_nat (max_docs self))
                  (filter (qualifies U) results)). lia.
  - intros doc pre post Hpdf Htitle. unfold qualifies. rewrite Hpdf.
    cbn [andb].
    destruct Htitle as [Ht|Ht];
      eapply (ai_related_title U doc (lit "artificial intelligence"));
      try exact Ht; try reflexivity; now left.
Qed.

Lemma search_documents_filters_witness :
  fst (search_documents ascii_db five_results (sample_client 2)
         (lit "artificial intelligence") [])
  = [doc_upper; doc_lower]
  /\ qualifies ascii_db doc_upper = true
  /\ qualifies ascii_db doc_lower = true.
Proof.
  destruct (search_documents_filters ascii_db five_results (sample_client 2)
              (lit "artificial intelligence") []
              {| json_results :=
                   Some [doc_upper; doc_no_pdf; doc_off_topic; doc_lower;
                         doc_third];
                 json_other_keys := true |})
    as (Hfound & _ & _ & Hcase).
  - vm_compute. discriminate.
  - reflexivity.
  - split; [rewrite Hfound; reflexivity|].
    split.
    + apply (Hcase doc_upper (lit "Request for Comment on ") []);
        [reflexivity | left; reflexivity].
    + apply (Hcase doc_lower (lit "Use of ") (lit " in lending"));
        [reflexivity | right; reflexivity].
Defined.

(** C8.  When the request raises (a transport error, an HTTP error status
    or an unreadable body), [api_request] returns [None] and
    [search_documents] returns the empty list; the callers go on: [run]
    returns [False] in the ordinary way and the comprehensive run moves on
    to its next term. *)
Theorem search_documents_request_failure (U : unicode_db) (E : env)
    (self : client) (term : pystr) (h : history) :
  let per_page := Z.min (max_docs self) 100 in
  let reply := api_reply_of E h term per_page in
  reply = ApiTransportError \/ reply = ApiHttpError \/ reply = ApiBadJson ->
  api_request E term per_page h = (None, h ++ [EvApiGet term per_page])
  /\ search_documents U E self term h = ([], h ++ [EvApiGet term per_page])
  /\ run U E self term h = (false, h ++ [EvApiGet term per_page])
  /\ (forall rest all_documents,
        terms_loop U E self (term :: rest) all_documents h
        = terms_loop U E self rest all_documents
            ((h ++ [EvApiGet term per_page]) ++ [EvSleep 1])).
Proof.
  intros per_page reply Hfail.
  assert (Hs : search_documents U E self term h
               = ([], h ++ [EvApiGet term per_page])).
  { rewrite search_documents_cases. fold per_page. fold reply.
    destruct Hfail as [-> | [-> | ->]]; reflexivity. }
  repeat split.
  - unfold api_request. fold reply.
    destruct Hfail as [-> | [-> | ->]]; reflexivity.
  - exact Hs.
  - unfold run, bind. rewrite Hs. reflexivity.
  - intros rest all_documents. cbn [terms_loop]. unfold bind at 1.
    rewrite Hs. reflexivity.
Qed.

Lemma search_documents_request_failure_witness :
  search_documents ascii_db api_down (sample_client 10) (lit "AI safety") []
  = ([], [EvApiGet (lit "AI safety") 10])
  /\ run ascii_db api_down (sample_client 10) (lit "AI safety") []
     = (false, [EvApiGet (lit "AI safety") 10]).
Proof.
  destruct (search_documents_request_failure ascii_db api_down
              (sample_client 10) (lit "AI safety") [])
    as (_ & Hs & Hr & _).
  - right. left. reflexivity.
  - split; [exact Hs | exact Hr].
Defined.

(** ** The document writer *)

Ltac flatten_text :=
  unfold unlines; cbn [map concat];
  repeat rewrite <- app_assoc; repeat rewrite app_nil_r;
  repeat rewrite <- app_assoc.

(** The text built by the code, in terms of the three parts. *)
Lemma document_text_parts (doc : document) (pdf_content : option pystr)
    (stamp : pystr) :
  document_text_of doc pdf_content stamp
  = header_block doc stamp ++ abstract_section doc
      ++ content_section pdf_content.
Proof.
  unfold document_text_of, header_block, header_before_stamp,
    abstract_section, content_section, agency_names_of.
  destruct (abstract doc) as [a|]; cbn [truthy_opt or_empty];
    [destruct (truthy a)|];
    (destruct pdf_content as [text|]; cbn [truthy_opt or_empty];
     [destruct (truthy text)|]);
    flatten_text; cbn [app]; reflexivity.
Qed.

(** C7.  The writer writes, under the derived file name, the header block
    (title, date, document number, type, agency names joined by a comma
    and a space, the HTML URL made absolute, the PDF URL, the time stamp,
    a divider and an empty line), then the abstract under its heading and
    closed by a divider when the record has a non-empty abstract, then the
    extracted text under its heading when there is some, and otherwise the
    note that the content is available via the PDF URL. *)
Theorem document_text_layout (U : unicode_db) (E : env) (self : client)
    (doc : document) (pdf_content : option pystr) (h : history) :
  let filename :=
    filename_of U (get_default (publication_date doc) (lit "unknown"))
      (get_default (title doc) (lit "Untitled Document")) in
  let body :=
    unlines
      [ lit "Title: " ++ get_default (title doc) (lit "Untitled Document");
        lit "Date: " ++ get_default (publication_date doc) (lit "unknown");
        lit "Document Number: " ++ get_default (document_number doc) [];
        lit "Type: " ++ get_default (doc_type doc) (lit "Unknown");
        lit "Agencies: "
          ++ join (lit ", ")
               (map (fun a => get_default (agency_name a) (lit "Unknown"))
                    (match agencies doc with Some l => l | None => [] end));
        lit "HTML URL: " ++ lit "https://www.federalregister.gov"
          ++ get_default (html_url doc) [];
        lit "PDF URL: " ++ get_default (pdf_url doc) [];
        lit "Downloaded: " ++ now E h;
        repeat 61%N 80;
        [] ]
    ++ (if truthy_opt (abstract doc)
        then unlines [lit "ABSTRACT:"; or_empty (abstract doc); [];
                      repeat 61%N 80; []]
        else [])
    ++ (if truthy_opt pdf_content
        then unlines [lit "FULL DOCUMENT CONTENT:"; []]
               ++ or_empty pdf_content
        else unlines
               [lit "Note: Full content available via PDF URL above."]) in
  save_document U E self doc pdf_content h
  = (write_ok E h (output_dir self) filename body,
     h ++ [EvWrite (output_dir self) filename body
             (write_ok E h (output_dir self) filename body)]).
Proof.
  cbv zeta. unfold save_document. rewrite document_text_parts.
  unfold header_block, header_before_stamp, abstract_section,
    content_section, agency_names_of, web_base, divider.
  match goal with
  | |- (write_ok _ _ _ _ ?b1, _) = (write_ok _ _ _ _ ?b2, _) =>
      assert (Hb : b1 = b2)
        by (flatten_text; cbn [app]; repeat rewrite <- app_assoc;
            reflexivity)
  end.
  now rewrite Hb.
Qed.

(** C9.  Two calls of the writer with the same record and the same
    extracted text write, under the same name, contents that are the same
    text before and after the time stamp of the "Downloaded:" line: they
    differ in that stamp only. *)
Theorem save_document_twice (U : unicode_db) (E : env) (self : client)
    (doc : document) (pdf_content : option pystr) (h1 h2 : history) :
  let filename :=
    filename_of U (get_default (publication_date doc) (lit "unknown"))
      (get_default (title doc) (lit "Untitled Document")) in
  let before := header_before_stamp doc in
  let after :=
    nl ++ unlines [divider; []] ++ abstract_section doc
       ++ content_section pdf_content in
  let body1 := before ++ now E h1 ++ after in
  let body2 := before ++ now E h2 ++ after in
  snd (save_document U E self doc pdf_content h1)
  = h1 ++ [EvWrite (output_dir self) filename body1
             (write_ok E h1 (output_dir self) filename body1)]
  /\ snd (save_document U E self doc pdf_content h2)
     = h2 ++ [EvWrite (output_dir self) filename body2
                (write_ok E h2 (output_dir self) filename body2)]
  /\ before
     = unlines
         [ lit "Title: " ++ get_default (title doc) (lit "Untitled Document");
           lit "Date: " ++ get_default (publication_date doc) (lit "unknown");
           lit "Document Number: " ++ get_default (document_number doc) [];
           lit "Type: " ++ get_default (doc_type doc) (lit "Unknown");
           lit "Agencies: " ++ agency_names_of doc;
           lit "HTML URL: " ++ web_base ++ get_default (html_url doc) [];
           lit "PDF URL: " ++ get_default (pdf_url doc) [] ]
       ++ lit "Downloaded: ".
Proof.
  cbv zeta.
  assert (Hbody : forall stamp,
            document_text_of doc pdf_content stamp
            = header_before_stamp doc ++ stamp
                ++ nl ++ unlines [divider; []] ++ abstract_section doc
                ++ content_section pdf_content).
  { intros stamp. rewrite document_text_parts. unfold header_block.
    now repeat rewrite <- app_assoc. }
  unfold save_document. cbn [snd]. rewrite !Hbody.
  repeat split.
Qed.

(** ** Histories of the runs *)

Lemma saved_app (evs1 evs2 : list event) :
  saved (evs1 ++ evs2) = saved evs1 + saved evs2.
Proof. unfold saved. now rewrite filter_app, length_app. Qed.

Lemma events_since_app (h evs : list event) :
  events_since h (h ++ evs) = evs.
Proof.
  unfold events_since. rewrite skipn_app, skipn_all, Nat.sub_diag.
  reflexivity.
Qed.

Section Runs.
Variable U : unicode_db.
Variable E : env.
Variable self : client.

(** A download only requests the PDF and waits. *)
Lemma download_attempts_events (url : pystr) (max_retries : Z) (todo : nat) :
  forall attempt h,
  exists evs,
    snd (download_attempts U E url max_retries todo attempt h) = h ++ evs
    /\ Forall (fun e => e = EvPdfGet url \/ e = EvSleep 2) evs.
Proof.
  induction todo as [|todo IH]; intros attempt h.
  - exists []. cbn. now rewrite app_nil_r.
  - rewrite download_attempts_step.
    destruct (attempt_try U (pdf_reply_of E h url)).
    + destruct (attempt <? max_retries - 1)%Z.
      * destruct (IH (attempt + 1)%Z ((h ++ [EvPdfGet url]) ++ [EvSleep 2]))
          as (evs & -> & Hevs).
        exists ([EvPdfGet url] ++ [EvSleep 2] ++ evs).
        split; [now rewrite <- !app_assoc|].
        repeat (constructor; auto).
      * destruct (IH (attempt + 1)%Z (h ++ [EvPdfGet url]))
          as (evs & -> & Hevs).
        exists ([EvPdfGet url] ++ evs).
        split; [now rewrite <- !app_assoc|].
        constructor; auto.
    + exists [EvPdfGet url]. split; [reflexivity|].
      constructor; auto.
Qed.

Lemma no_write_not_saved (url : pystr) (evs : list event) :
  Forall (fun e => e = EvPdfGet url \/ e = EvSleep 2) evs -> saved evs = 0.
Proof.
  induction 1 as [|e evs [-> | ->] _ IH]; [reflexivity | exact IH | exact IH].
Qed.

(** One iteration of the processing loop, unfolded. *)
Lemma process_loop_step (i total : nat) (doc : document)
    (rest : list document) (success_count : nat) (h : history) :
  process_loop U E self i total (doc :: rest) success_count h =
    let r1 := (if truthy_opt (pdf_url doc)
               then download_pdf U E (pdf_url doc) 3
               else ret None) h in
    let r2 := save_document U E self doc (fst r1) (snd r1) in
    process_loop U E self (S i) total rest
      (if fst r2 then S success_count else success_count)
      (if i <? total then snd r2 ++ [EvSleep 2] else snd r2).
Proof.
  cbn [process_loop]. unfold bind at 1.
  destruct ((if truthy_opt (pdf_url doc)
             then download_pdf U E (pdf_url doc) 3 else ret None) h)
    as [pdf_content h1].
  unfold bind at 1. cbn [fst snd].
  destruct (save_document U E self doc pdf_content h1) as [ok h2].
  unfold bind at 1, when, sleep, emit, ret. cbn [fst snd].
  destruct (i <? total); reflexivity.
Qed.

(** The download made for a record, if any, only requests its PDF and
    waits. *)
Lemma record_download_events (doc : document) (h : history) :
  exists evs,
    snd ((if truthy_opt (pdf_url doc)
          then download_pdf U E (pdf_url doc) 3
          else ret None) h) = h ++ evs
    /\ Forall (handles U self doc) evs
    /\ saved evs = 0.
Proof.
  destruct (pdf_url doc) as [url|] eqn:Hurl; cbn [truthy_opt].
  - destruct (truthy url) eqn:T.
    + rewrite (download_pdf_truthy U E url 3 T).
      destruct (download_attempts_events url 3 (Z.to_nat 3) 0%Z h)
        as (evs & -> & Hevs).
      exists evs. split; [reflexivity|]. split.
      * eapply Forall_impl; [|exact Hevs].
        intros e [-> | ->]; cbn; [exact Hurl | reflexivity].
      * now apply (no_write_not_saved url).
    + exists []. cbn. rewrite app_nil_r. repeat split. constructor.
  - exists []. cbn. rewrite app_nil_r. repeat split. constructor.
Qed.

(** The processing loop: the count grows by the successful writes; every
    event belongs to one of the records; at most one write per record. *)
Lemma process_loop_events (docs : list document) :
  forall i total success_count h,
  exists evs,
    process_loop U E self i total docs success_count h
    = (success_count + saved evs, h ++ evs)
    /\ Forall (fun e => exists doc, In doc docs /\ handles U self doc e) evs
    /\ saved evs <= length docs.
Proof.
  induction docs as [|doc rest IH]; intros i total success_count h.
  - exists []. cbn. rewrite app_nil_r, Nat.add_0_r. repeat split; auto.
  - rewrite process_loop_step. cbv zeta.
    destruct (record_download_events doc h) as (evs1 & Hh1 & Hev1 & Hs1).
    set (r1 := (if truthy_opt (pdf_url doc)
                then download_pdf U E (pdf_url doc) 3 else ret None) h) in *.
    unfold save_document. cbn [fst snd]. rewrite Hh1.
    set (filename := filename_of U _ _).
    set (body := document_text_of doc (fst r1) (now E (h ++ evs1))).
    set (ok := write_ok E (h ++ evs1) (output_dir self) filename body).
    set (wait := if i <? total then [EvSleep 2] else []).
    assert (Hh3 : (if i <? total return history
                   then ((h ++ evs1)
                           ++ [EvWrite (output_dir self) filename body ok])
                          ++ [EvSleep 2]
                   else (h ++ evs1)
                          ++ [EvWrite (output_dir self) filename body ok])
                  = h ++ evs1
                      ++ [EvWrite (output_dir self) filename body ok] ++ wait).
    { unfold wait. destruct (i <? total); rewrite <- ?app_assoc;
        [reflexivity | now rewrite app_nil_r]. }
    rewrite Hh3.
    destruct (IH (S i) total (if ok then S success_count else success_count)
                (h ++ evs1
                   ++ [EvWrite (output_dir self) filename body ok] ++ wait))
      as (evs2 & -> & Hev2 & Hs2).
    exists (evs1 ++ [EvWrite (output_dir self) filename body ok]
              ++ wait ++ evs2).
    assert (Hwait : saved wait = 0)
      by (unfold wait; destruct (i <? total); reflexivity).
    assert (Hw : saved [EvWrite (output_dir self) filename body ok]
                 = if ok then 1 else 0)
      by (unfold saved; cbn; destruct ok; reflexivity).
    split; [|split].
    + rewrite !saved_app, Hs1, Hwait, Hw, <- !app_assoc.
      f_equal. destruct ok; lia.
    + apply Forall_app. split.
      { eapply Forall_impl; [|exact Hev1].
        intros e He. exists doc. split; [now left | exact He]. }
      constructor.
      { exists doc. split; [now left|]. cbn. repeat split. unfold body. eauto. }
      apply Forall_app. split.
      { unfold wait. destruct (i <? total); constructor; [|constructor].
        exists doc. split; [now left | reflexivity]. }
      eapply Forall_impl; [|exact Hev2].
      intros e (d & Hd & He). exists d. split; [now right | exact He].
    + rewrite !saved_app, Hs1, Hwait, Hw. cbn [length]. destruct ok; lia.
Qed.

(** [process]: success is reported exactly when a write succeeded. *)
Lemma process_events (docs : list document) (h : history) :
  exists evs,
    process U E self docs h = (0 <? saved evs, h ++ evs)
    /\ Forall (fun e => exists doc, In doc docs /\ handles U self doc e) evs
    /\ saved evs <= length docs.
Proof.
  destruct docs as [|doc rest].
  - exists []. cbn. rewrite app_nil_r. repeat split; auto.
  - unfold process, bind.
    destruct (process_loop_events (doc :: rest) 1 (length (doc :: rest)) 0 h)
      as (evs & -> & Hev & Hs).
    exists evs. repeat split; auto.
Qed.

End Runs.

(** ** The deduplicating dict *)

Lemma str_eqb_eq (a b : pystr) : str_eqb a b = true <-> a = b.
Proof.
  unfold str_eqb. destruct (list_eq_dec N.eq_dec a b); split;
    congruence.
Qed.

Lemma str_eqb_refl (a : pystr) : str_eqb a a = true.
Proof. now apply str_eqb_eq. Qed.

Lemma str_eqb_neq (a b : pystr) : str_eqb a b = false <-> a <> b.
Proof.
  unfold str_eqb. destruct (list_eq_dec N.eq_dec a b); split;
    congruence.
Qed.

Lemma find_app {A} (f : A -> bool) (l1 l2 : list A) :
  find f (l1 ++ l2)
  = match find f l1 with Some x => Some x | None => find f l2 end.
Proof.
  induction l1 as [|a l1 IH]; [reflexivity|].
  cbn [app find]. now destruct (f a).
Qed.

Lemma find_none_existsb {A} (f : A -> bool) (l : list A) :
  find f l = None <-> existsb f l = false.
Proof.
  induction l as [|a l IH]; [now split|].
  cbn [find existsb]. destruct (f a); cbn [orb]; [split; discriminate|].
  exact IH.
Qed.

Lemma dict_mem_get (k : pystr) (d : dict) :
  dict_mem k d = false <-> dict_get k d = None.
Proof. unfold dict_mem, dict_get. symmetry. apply find_none_existsb. Qed.

Lemma dict_mem_keys (k : pystr) (d : dict) :
  dict_mem k d = true <-> In k (map fst d).
Proof.
  unfold dict_mem. rewrite existsb_exists, in_map_iff. split.
  - intros (kv & Hin & Heq). apply str_eqb_eq in Heq. eauto.
  - intros (kv & Heq & Hin). exists kv. split; [exact Hin|].
    now apply str_eqb_eq.
Qed.

Lemma dict_get_snoc (k id : pystr) (doc : document) (d : dict) :
  dict_get k (d ++ [(id, doc)])
  = match dict_get k d with
    | Some kv => Some kv
    | None => if str_eqb id k then Some (id, doc) else None
    end.
Proof. unfold dict_get. rewrite find_app. reflexivity. Qed.

Lemma has_id_number (id : pystr) (doc : document) (n : pystr) :
  document_number doc = Some n -> has_id id doc = str_eqb n id.
Proof. intros H. unfold has_id. now rewrite H. Qed.

Lemma NoDup_snoc {A} (a : A) (l : list A) :
  NoDup l -> ~ In a l -> NoDup (l ++ [a]).
Proof.
  induction 1 as [|b l Hb Hl IH]; intros Ha.
  - constructor; [intros [] | constructor].
  - cbn [app]. constructor.
    + rewrite in_app_iff. intros [H|[H|[]]]; [contradiction|].
      subst. apply Ha. now left.
    + apply IH. intros H. apply Ha. now right.
Qed.

(** The merge keeps the invariant. *)
Lemma merge_loop_keyed (documents : list document) : forall all_documents,
  keyed all_documents -> keyed (merge_loop documents all_documents).
Proof.
  induction documents as [|doc rest IH]; intros d Hd; [exact Hd|].
  cbn [merge_loop]. destruct (document_number doc) as [id|] eqn:Hid;
    [|now apply IH].
  destruct (truthy id) eqn:T; cbn [andb]; [|now apply IH].
  destruct (dict_mem id d) eqn:M; cbn [negb]; [now apply IH|].
  apply IH. destruct Hd as [Hnd Hall]. split.
  - rewrite map_app. cbn [map fst]. apply NoDup_snoc; [exact Hnd|].
    intros Hin. apply dict_mem_keys in Hin. congruence.
  - apply Forall_app. split; [exact Hall|].
    constructor; [|constructor]. cbn [fst snd]. now split.
Qed.

(** The entry of a non-empty identifier after a merge: the one already
    there, else the first record of the sequence that carries it. *)
Lemma merge_loop_get (id : pystr) (documents : list document) :
  truthy id = true ->
  forall all_documents,
  dict_get id (merge_loop documents all_documents)
  = match dict_get id all_documents with
    | Some kv => Some kv
    | None => option_map (pair id) (find (has_id id) documents)
    end.
Proof.
  intros T. induction documents as [|doc rest IH]; intros d.
  - cbn [merge_loop find option_map]. now destruct (dict_get id d).
  - cbn [merge_loop find].
    destruct (document_number doc) as [n|] eqn:Hn.
    + rewrite (has_id_number id doc n Hn).
      destruct (truthy n && negb (dict_mem n d)) eqn:Add.
      * apply andb_true_iff in Add as [Tn Mn].
        apply negb_true_iff in Mn.
        rewrite IH, dict_get_snoc.
        destruct (dict_get id d) as [kv|] eqn:G; [reflexivity|].
        destruct (str_eqb n id) eqn:Eq; [|reflexivity].
        apply str_eqb_eq in Eq. subst n. reflexivity.
      * rewrite IH. destruct (dict_get id d) as [kv|] eqn:G; [reflexivity|].
        destruct (str_eqb n id) eqn:Eq; [|reflexivity].
        apply str_eqb_eq in Eq. subst n.
        apply dict_mem_get in G. rewrite T, G in Add. discriminate.
    + unfold has_id at 1. rewrite Hn. apply IH.
Qed.

Lemma collect_from_keyed (results : list (list document)) :
  forall all_documents,
  keyed all_documents -> keyed (collect_from all_documents results).
Proof.
  induction results as [|documents rest IH]; intros d Hd; [exact Hd|].
  cbn [collect_from fold_left]. apply IH. now apply merge_loop_keyed.
Qed.

Lemma collect_from_get (id : pystr) (results : list (list document)) :
  truthy id = true ->
  forall all_documents,
  dict_get id (collect_from all_documents results)
  = match dict_get id all_documents with
    | Some kv => Some kv
    | None => option_map (pair id) (find (has_id id) (concat results))
    end.
Proof.
  intros T. induction results as [|documents rest IH]; intros d.
  - cbn [collect_from fold_left concat find option_map].
    now destruct (dict_get id d).
  - cbn [collect_from fold_left concat]. fold (collect_from (merge_loop documents d) rest).
    rewrite IH, (merge_loop_get id documents T), find_app.
    destruct (dict_get id d); [reflexivity|].
    now destruct (find (has_id id) documents).
Qed.

(** With the invariant, the records that carry an identifier are the
    entries under that key: at most one. *)
Lemma keyed_filter (id : pystr) (d : dict) :
  keyed d ->
  filter (has_id id) (dict_values d)
  = match dict_get id d with
    | Some kv => [snd kv]
    | None => []
    end.
Proof.
  intros [Hnd Hall]. induction d as [|[k doc] d IH]; [reflexivity|].
  inversion Hnd as [|? ? Hk Hnd']; subst.
  inversion Hall as [|? ? [Tk Hdoc] Hall']; subst.
  cbn [fst snd] in *.
  unfold dict_values, dict_get in *. cbn [map filter find fst snd].
  rewrite (has_id_number id doc k Hdoc).
  destruct (str_eqb k id) eqn:Eq; [|now apply IH].
  apply str_eqb_eq in Eq. subst k. f_equal.
  rewrite (IH Hnd' Hall').
  destruct (find (fun kv => str_eqb (fst kv) id) d) as [kv|] eqn:F;
    [|reflexivity].
  apply find_some in F as [Hin Hkey]. apply str_eqb_eq in Hkey.
  exfalso. apply Hk. rewrite <- Hkey. now apply in_map.
Qed.

Lemma keyed_nil : keyed [].
Proof. split; constructor. Qed.

(** The first record that satisfies [f] in the concatenation lies in the
    earliest sequence that has one. *)
Lemma find_concat_earliest {A} (f : A -> bool) (ls : list (list A)) :
  forall i l,
  nth_error ls i = Some l -> existsb f l = true ->
  exists x k lk,
    find f (concat ls) = Some x
    /\ k <= i /\ nth_error ls k = Some lk /\ find f lk = Some x
    /\ (forall k' l', k' < k -> nth_error ls k' = Some l' ->
                      existsb f l' = false).
Proof.
  induction ls as [|l0 ls IH]; intros i l Hnth Hex.
  - destruct i; discriminate.
  - cbn [concat]. rewrite find_app.
    destruct (find f l0) as [x|] eqn:F0.
    + exists x, 0, l0. repeat split; auto; [lia|].
      intros k' l' Hk. lia.
    + destruct i as [|i].
      * cbn in Hnth. injection Hnth as <-.
        apply find_none_existsb in F0. congruence.
      * cbn [nth_error] in Hnth.
        destruct (IH i l Hnth Hex) as (x & k & lk & Hf & Hk & Hn & Hfk & Hmin).
        exists x, (S k), lk. repeat split; auto; [lia|].
        intros k' l' Hk' Hn'. destruct k' as [|k'].
        -- cbn in Hn'. injection Hn' as <-. now apply find_none_existsb.
        -- cbn in Hn'. apply (Hmin k' l'); [lia | exact Hn'].
Qed.

(** ** The term loop *)

Section Terms.
Variable U : unicode_db.
Variable E : env.
Variable self : client.

Lemma quiet_not_saved (evs : list event) : Forall quiet evs -> saved evs = 0.
Proof.
  induction 1 as [|e evs He _ IH]; [reflexivity|].
  destruct e; try contradiction; exact IH.
Qed.

(** The term loop merges the result sequences of its searches, and only
    sends API requests and waits one second after each. *)
Lemma terms_loop_collects (terms : list pystr) :
  forall all_documents h,
  exists evs,
    terms_loop U E self terms all_documents h
    = (collect_from all_documents (term_results U E self terms h), h ++ evs)
    /\ Forall quiet evs.
Proof.
  induction terms as [|term rest IH]; intros d h.
  - exists []. cbn. rewrite app_nil_r. split; [reflexivity | constructor].
  - cbn [terms_loop term_results]. unfold bind at 1.
    rewrite search_documents_cases.
    set (documents := match api_reply_of E h term _ with
                      | ApiJson _ => _ | _ => [] end).
    unfold bind at 1, sleep, emit.
    destruct (IH (merge_loop documents d)
                ((h ++ [EvApiGet term (Z.min (max_docs self) 100)])
                   ++ [EvSleep 1])) as (evs & -> & Hq).
    exists ([EvApiGet term (Z.min (max_docs self) 100)] ++ [EvSleep 1] ++ evs).
    split; [now rewrite <- !app_assoc|].
    constructor; [exact I|]. constructor; [exact I | exact Hq].
Qed.

End Terms.

(** ** The runs *)

Section RunFacts.
Variable U : unicode_db.
Variable E : env.
Variable self : client.

Lemma run_events (term : pystr) (h : history) :
  exists evs,
    run U E self term h = (0 <? saved evs, h ++ evs).
Proof.
  unfold run, bind. rewrite search_documents_cases.
  set (documents := match api_reply_of E h term _ with
                    | ApiJson _ => _ | _ => [] end).
  destruct (process_events U E self documents
              (h ++ [EvApiGet term (Z.min (max_docs self) 100)]))
    as (evs & -> & _ & _).
  exists ([EvApiGet term (Z.min (max_docs self) 100)] ++ evs).
  rewrite saved_app, <- app_assoc. reflexivity.
Qed.

(** The comprehensive run: the term loop, then the processing of the
    collected records. *)
Lemma run_comprehensive_search_events (h : history) :
  let collected := terms_loop U E self search_terms [] h in
  exists quiet_evs evs,
    snd collected = h ++ quiet_evs
    /\ Forall quiet quiet_evs
    /\ run_comprehensive_search U E self h
       = (0 <? saved evs, snd collected ++ evs)
    /\ Forall (fun e => exists doc,
                  In doc (dict_values (fst collected))
                  /\ handles U self doc e) evs
    /\ saved evs <= length (dict_values (fst collected)).
Proof.
  cbv zeta. unfold run_comprehensive_search, bind.
  destruct (terms_loop_collects U E self search_terms [] h)
    as (qevs & Hloop & Hq).
  rewrite Hloop. cbn [fst snd].
  destruct (process_events U E self
              (dict_values
                 (collect_from [] (term_results U E self search_terms h)))
              (h ++ qevs)) as (evs & Hp & Hev & Hs).
  exists qevs, evs. repeat split; auto.
Qed.

End RunFacts.

(** C2.  In a comprehensive run, when the result sequences of two terms
    both contain a record with the same non-empty document number, the
    collection that is processed has exactly one record with that number:
    the first such record of the earliest term that returned one, which
    is the earlier term of the pair or a term before it.  The records of
    later terms with that number are skipped. *)
Theorem comprehensive_run_keeps_first (U : unicode_db) (E : env)
    (self : client) (h : history) (i j : nat)
    (docs_i docs_j : list document) (id : pystr) :
  let results := term_results U E self search_terms h in
  let collected := terms_loop U E self search_terms [] h in
  let final := dict_values (fst collected) in
  i < j ->
  nth_error results i = Some docs_i ->
  nth_error results j = Some docs_j ->
  truthy id = true ->
  existsb (has_id id) docs_i = true ->
  existsb (has_id id) docs_j = true ->
  run_comprehensive_search U E self h
  = process U E self final (snd collected)
  /\ exists d k docs_k,
       filter (has_id id) final = [d]
       /\ find (has_id id) (concat results) = Some d
       /\ k <= i
       /\ nth_error results k = Some docs_k
       /\ find (has_id id) docs_k = Some d
       /\ (forall k' docs', k' < k -> nth_error results k' = Some docs' ->
                            existsb (has_id id) docs' = false).
Proof.
  intros results collected final Hij Hi Hj T Xi Xj.
  split.
  { unfold final, collected, run_comprehensive_search, bind.
    now destruct (terms_loop U E self search_terms [] h). }
  destruct (find_concat_earliest (has_id id) results i docs_i Hi Xi)
    as (d & k & docs_k & Hfind & Hk & Hnth & Hfk & Hmin).
  exists d, k, docs_k. repeat split; auto.
  unfold final, collected.
  destruct (terms_loop_collects U E self search_terms [] h)
    as (evs & -> & _).
  cbn [fst]. fold results.
  rewrite keyed_filter by (apply collect_from_keyed, keyed_nil).
  rewrite (collect_from_get id results T). cbn [dict_get find].
  rewrite Hfind. reflexivity.
Qed.

Lemma comprehensive_run_keeps_first_witness :
  let results :=
    term_results ascii_db revised_later (sample_client 10) search_terms [] in
  let final :=
    dict_values
      (fst (terms_loop ascii_db revised_later (sample_client 10)
              search_terms [] [])) in
  nth_error results 0 = Some [doc_upper; doc_lower]
  /\ nth_error results 1 = Some [doc_third; doc_revised]
  /\ filter (has_id (lit "2024-00001")) final = [doc_upper]
  /\ final = [doc_upper; doc_lower; doc_third].
Proof.
  cbv zeta.
  assert (H0 : nth_error
                 (term_results ascii_db revised_later (sample_client 10)
                    search_terms []) 0 = Some [doc_upper; doc_lower])
    by (vm_compute; reflexivity).
  assert (H1 : nth_error
                 (term_results ascii_db revised_later (sample_client 10)
                    search_terms []) 1 = Some [doc_third; doc_revised])
    by (vm_compute; reflexivity).
  split; [exact H0|]. split; [exact H1|].
  destruct (comprehensive_run_keeps_first ascii_db revised_later
              (sample_client 10) [] 0 1 [doc_upper; doc_lower]
              [doc_third; doc_revised] (lit "2024-00001"))
    as (_ & d & k & docs_k & Hone & _ & Hk & Hnth & Hfirst & _).
  - lia.
  - exact H0.
  - exact H1.
  - reflexivity.
  - vm_compute; reflexivity.
  - vm_compute; reflexivity.
  - split; [|vm_compute; reflexivity].
    rewrite Hone. f_equal.
    assert (k = 0) by lia. subst k. rewrite H0 in Hnth.
    injection Hnth as <-. vm_compute in Hfirst. now injection Hfirst.
Defined.

Lemma keyed_numbered (d : dict) :
  keyed d ->
  Forall (fun doc => truthy_opt (document_number doc) = true) (dict_values d).
Proof.
  intros [_ Hall]. unfold dict_values. apply Forall_map.
  eapply Forall_impl; [|exact Hall].
  intros kv [T Hn]. now rewrite Hn.
Qed.

(** C10.  A record whose document number is missing or empty is not in
    the collection of a comprehensive run: every collected record has a
    non-empty number.  The run processes the collected records only:
    each PDF request, wait and file write after the searches belongs to
    a collected record, and the success count is at most their number. *)
Theorem unnumbered_records_are_dropped (U : unicode_db) (E : env)
    (self : client) (h : history) (doc : document) :
  let collected := terms_loop U E self search_terms [] h in
  let final := dict_values (fst collected) in
  truthy_opt (document_number doc) = false ->
  ~ In doc final
  /\ Forall (fun kept => truthy_opt (document_number kept) = true) final
  /\ exists evs,
       run_comprehensive_search U E self h
       = (0 <? saved evs, snd collected ++ evs)
       /\ Forall (fun e => exists kept,
                     In kept final
                     /\ truthy_opt (document_number kept) = true
                     /\ handles U self kept e) evs
       /\ saved evs <= length final.
Proof.
  intros collected final Hdoc.
  assert (Hnum : Forall (fun kept => truthy_opt (document_number kept) = true)
                   final).
  { unfold final, collected.
    destruct (terms_loop_collects U E self search_terms [] h)
      as (evs & -> & _).
    cbn [fst]. apply keyed_numbered, collect_from_keyed, keyed_nil. }
  split; [|split; [exact Hnum|]].
  - intros Hin. rewrite Forall_forall in Hnum.
    specialize (Hnum doc Hin). congruence.
  - destruct (run_comprehensive_search_events U E self h)
      as (qevs & evs & _ & _ & Hrun & Hev & Hs).
    exists evs. split; [exact Hrun|]. split; [|exact Hs].
    eapply Forall_impl; [|exact Hev].
    intros e (kept & Hin & He). exists kept. repeat split; auto.
    rewrite Forall_forall in Hnum. now apply Hnum.
Qed.

Lemma unnumbered_records_are_dropped_witness :
  let final :=
    dict_values
      (fst (terms_loop ascii_db some_unnumbered (sample_client 10)
              search_terms [] [])) in
  In doc_unnumbered
    (fst (search_documents ascii_db some_unnumbered (sample_client 10)
            (lit "artificial intelligence") []))
  /\ truthy_opt (document_number doc_unnumbered) = false
  /\ ~ In doc_unnumbered final
  /\ final = [doc_upper].
Proof.
  cbv zeta. split; [vm_compute; auto|]. split; [reflexivity|].
  destruct (unnumbered_records_are_dropped ascii_db some_unnumbered
              (sample_client 10) [] doc_unnumbered eq_refl)
    as (Hnot & _ & _).
  split; [exact Hnot | vm_compute; reflexivity].
Defined.

(** C5.  A run, single-term or comprehensive, returns [True] exactly when
    one of its file writes succeeded; [main] ends the process with code 0
    when its run returned [True] and with code 1 otherwise, so the code is
    0 exactly when a write succeeded.  A run with no document to process
    (no qualifying record found) returns [False] without writing, which
    gives exit code 1. *)
Theorem exit_code_tells_saved (U : unicode_db) (E : env) :
  (forall self term h,
     fst (run U E self term h)
     = (0 <? saved (events_since h (snd (run U E self term h))))
     /\ run U E self term h
        = process U E self (fst (search_documents U E self term h))
            (snd (search_documents U E self term h)))
  /\ (forall self h,
        fst (run_comprehensive_search U E self h)
        = (0 <? saved (events_since h
                         (snd (run_comprehensive_search U E self h)))))
  /\ (forall self h, process U E self [] h = (false, h))
  /\ (forall self term h,
        fst (search_documents U E self term h) = [] ->
        run U E self term h = (false, snd (search_documents U E self term h)))
  /\ (forall self h,
        dict_values (fst (terms_loop U E self search_terms [] h)) = [] ->
        run_comprehensive_search U E self h
        = (false, snd (terms_loop U E self search_terms [] h)))
  /\ (forall a h,
        let h1 := h ++ [EvMkdir (arg_output a) (mkdir_ok E h (arg_output a))] in
        let self := {| output_dir := arg_output a;
                       max_docs := arg_max_docs a |} in
        let result :=
          (if arg_comprehensive a then run_comprehensive_search U E self
           else run U E self (arg_term a)) h1 in
        main U E a h
        = if mkdir_ok E h (arg_output a)
          then (if fst result then 0%Z else 1%Z, snd result)
          else (1%Z, h1))
  /\ (forall a h,
        fst (main U E a h)
        = if 0 <? saved (events_since h (snd (main U E a h)))
          then 0%Z else 1%Z).
Proof.
  assert (Hrun : forall self term h,
            fst (run U E self term h)
            = (0 <? saved (events_since h (snd (run U E self term h))))).
  { intros self term h. destruct (run_events U E self term h) as (evs & ->).
    cbn [fst snd]. now rewrite events_since_app. }
  assert (Hcomp : forall self h,
            fst (run_comprehensive_search U E self h)
            = (0 <? saved (events_since h
                             (snd (run_comprehensive_search U E self h))))).
  { intros self h.
    destruct (run_comprehensive_search_events U E self h)
      as (qevs & evs & Hh & Hq & -> & _ & _).
    cbn [fst snd]. rewrite Hh, <- app_assoc, events_since_app, saved_app.
    now rewrite (quiet_not_saved qevs Hq). }
  assert (Hmain : forall a h,
            main U E a h
            = if mkdir_ok E h (arg_output a)
              then (if fst ((if arg_comprehensive a
                             then run_comprehensive_search U E
                                    {| output_dir := arg_output a;
                                       max_docs := arg_max_docs a |}
                             else run U E
                                    {| output_dir := arg_output a;
                                       max_docs := arg_max_docs a |}
                                    (arg_term a))
                              (h ++ [EvMkdir (arg_output a)
                                       (mkdir_ok E h (arg_output a))]))
                    then 0%Z else 1%Z,
                    snd ((if arg_comprehensive a
                          then run_comprehensive_search U E
                                 {| output_dir := arg_output a;
                                    max_docs := arg_max_docs a |}
                          else run U E
                                 {| output_dir := arg_output a;
                                    max_docs := arg_max_docs a |}
                                 (arg_term a))
                           (h ++ [EvMkdir (arg_output a)
                                    (mkdir_ok E h (arg_output a))])))
              else (1%Z, h ++ [EvMkdir (arg_output a)
                                 (mkdir_ok E h (arg_output a))])).
  { intros a h. unfold main.
    destruct (mkdir_ok E h (arg_output a)); cbn [negb]; [|reflexivity].
    unfold bind, ret.
    now destruct ((if arg_comprehensive a
                   then run_comprehensive_search U E _
                   else run U E _ (arg_term a)) _). }
  repeat split.
  - apply Hrun.
  - unfold run, bind.
    now destruct (search_documents U E self term h).
  - apply Hcomp.
  - intros self term h Hnone. unfold run, bind.
    destruct (search_documents U E self term h) as [documents h'].
    cbn [fst snd] in *. now subst documents.
  - intros self h Hnone. unfold run_comprehensive_search, bind.
    destruct (terms_loop U E self search_terms [] h) as [all_documents h'].
    cbn [fst snd] in *. now rewrite Hnone.
  - intros a h. apply Hmain.
  - intros a h. rewrite Hmain.
    set (self := {| output_dir := arg_output a; max_docs := arg_max_docs a |}).
    set (made := mkdir_ok E h (arg_output a)).
    set (h1 := h ++ [EvMkdir (arg_output a) made]).
    destruct made eqn:Hm; cbn [fst snd].
    + assert (Hres : exists evs b,
                (if arg_comprehensive a
                 then run_comprehensive_search U E self
                 else run U E self (arg_term a)) h1 = (b, h1 ++ evs)
                /\ b = (0 <? saved evs)).
      { destruct (arg_comprehensive a).
        - destruct (run_comprehensive_search_events U E self h1)
            as (qevs & evs & Hh & Hq & Hr & _ & _).
          exists (qevs ++ evs), (0 <? saved evs).
          rewrite Hr, Hh, <- app_assoc, saved_app.
          now rewrite (quiet_not_saved qevs Hq).
        - destruct (run_events U E self (arg_term a) h1) as (evs & ->).
          now exists evs, (0 <? saved evs). }
      destruct Hres as (evs & b & -> & ->). cbn [fst snd].
      unfold h1. rewrite <- app_assoc, events_since_app, saved_app.
      reflexivity.
    + unfold h1. now rewrite events_since_app.
Qed.

(* ================================================================== *)
(** * Further properties of the code *)

(** ** [download_pdf]: the shape of its effects *)

Section DownloadShape.
Variable U : unicode_db.
Variable E : env.
Variable url : pystr.
Variable max_retries : Z.

(** With at least one iteration to run, the loop sends a last request
    that is not followed by a wait. *)
Lemma download_attempts_shape (todo : nat) :
  forall (attempt : Z) (h : history),
  (attempt + Z.of_nat (S todo) = max_retries)%Z ->
  exists k,
    k <= todo
    /\ snd (download_attempts U E url max_retries (S todo) attempt h)
       = after_failures h url k ++ [EvPdfGet url].
Proof.
  induction todo as [|todo IH]; intros attempt h Hinv;
    rewrite download_attempts_step;
    destruct (attempt_try U (pdf_reply_of E h url)) eqn:Try.
  - exists 0. split; [lia|].
    assert (Hlt : (attempt <? max_retries - 1)%Z = false)
      by (apply Z.ltb_ge; lia).
    rewrite Hlt, after_failures_0. reflexivity.
  - exists 0. now rewrite after_failures_0.
  - assert (Hlt : (attempt <? max_retries - 1)%Z = true)
      by (apply Z.ltb_lt; lia).
    rewrite Hlt.
    destruct (IH (attempt + 1)%Z ((h ++ [EvPdfGet url]) ++ [EvSleep 2]))
      as (k & Hk & ->); [lia|].
    exists (S k). split; [lia|]. now rewrite after_failures_S.
  - exists 0. split; [lia|]. now rewrite after_failures_0.
Qed.

(** A text that is returned comes from a parsed PDF with a page that
    yields text. *)
Lemma download_attempts_text (todo : nat) :
  forall (attempt : Z) (h : history) (text : pystr),
  fst (download_attempts U E url max_retries todo attempt h) = Some text ->
  exists pages,
    existsb yields_text pages = true
    /\ text = text_described U pages.
Proof.
  induction todo as [|todo IH]; intros attempt h text Hres;
    [discriminate|].
  rewrite download_attempts_step in Hres.
  destruct (attempt_try U (pdf_reply_of E h url)) as [|result] eqn:Try.
  - eapply IH. exact Hres.
  - cbn [fst] in Hres. subst result.
    destruct (pdf_reply_of E h url) as [| | |pages]; try discriminate.
    rewrite attempt_try_pages in Try.
    destruct (existsb page_raises pages); [discriminate|].
    destruct (existsb yields_text pages) eqn:Y; [|discriminate].
    exists pages. split; [exact Y|]. now injection Try.
Qed.

End DownloadShape.

(** X1.  For a non-empty URL and at least one allowed attempt, the
    effects of [download_pdf] are [k] rounds of a request and a 2-second
    wait, then one last request, with [k < max_retries]: a request is
    always sent, and the call never ends on a wait. *)
Theorem download_pdf_history_shape (U : unicode_db) (E : env) (url : pystr)
    (max_retries : Z) (h : history) :
  truthy url = true ->
  (0 < max_retries)%Z ->
  exists k,
    k < Z.to_nat max_retries
    /\ snd (download_pdf U E (Some url) max_retries h)
       = (h ++ concat (repeat [EvPdfGet url; EvSleep 2] k))
           ++ [EvPdfGet url].
Proof.
  intros T Hn. rewrite (download_pdf_truthy U E url max_retries T).
  destruct (Z.to_nat max_retries) as [|todo] eqn:N; [lia|].
  destruct (download_attempts_shape U E url max_retries todo 0%Z h)
    as (k & Hk & Hs); [lia|].
  exists k. split; [lia | exact Hs].
Qed.

Lemma download_pdf_history_shape_witness :
  exists k,
    k < 3
    /\ snd (download_pdf ascii_db fails_twice (Some sample_url) 3 [])
       = ([] ++ concat (repeat [EvPdfGet sample_url; EvSleep 2] k))
           ++ [EvPdfGet sample_url].
Proof.
  apply (download_pdf_history_shape ascii_db fails_twice sample_url 3 []).
  - reflexivity.
  - lia.
Defined.

(** X2.  Without a URL (missing or empty) or without an allowed attempt
    ([max_retries <= 0]) [download_pdf] returns nothing and has no effect:
    no request is sent and no time is spent. *)
Theorem download_pdf_nothing_to_do (U : unicode_db) (E : env)
    (url : option pystr) (max_retries : Z) (h : history) :
  truthy_opt url = false \/ (max_retries <= 0)%Z ->
  download_pdf U E url max_retries h = (None, h).
Proof.
  intros [Hurl | Hn]; unfold download_pdf.
  - destruct url as [u|]; [|reflexivity].
    cbn [truthy_opt] in Hurl. now rewrite Hurl.
  - destruct url as [u|]; [|reflexivity].
    destruct (truthy u); [|reflexivity]. cbn [negb].
    replace (Z.to_nat max_retries) with 0 by lia. reflexivity.
Qed.

Lemma download_pdf_nothing_to_do_witness :
  download_pdf ascii_db fails_twice (Some []) 3 [] = (None, [])
  /\ download_pdf ascii_db fails_twice (Some sample_url) 0 [] = (None, []).
Proof.
  split.
  - apply (download_pdf_nothing_to_do ascii_db fails_twice (Some []) 3 []).
    left. reflexivity.
  - apply (download_pdf_nothing_to_do ascii_db fails_twice
             (Some sample_url) 0 []).
    right. lia.
Defined.

(** ** [download_pdf]: the text it returns *)

Lemma join_snoc2 (sep a b : pystr) (l : list pystr) :
  join sep (l ++ [a; b]) = join sep (l ++ [a]) ++ sep ++ b.
Proof.
  induction l as [|x l IH]; [reflexivity|].
  cbn [app]. destruct l as [|y l].
  - cbn. now rewrite <- !app_assoc.
  - change (join sep (x :: (y :: l) ++ [a; b]))
      with (x ++ sep ++ join sep ((y :: l) ++ [a; b])).
    change (join sep (x :: (y :: l) ++ [a]))
      with (x ++ sep ++ join sep ((y :: l) ++ [a])).
    rewrite IH. now rewrite <- !app_assoc.
Qed.

Lemma join_cons2 (sep a b : pystr) (l : list pystr) :
  join sep (a :: b :: l) = a ++ sep ++ join sep (b :: l).
Proof. reflexivity. Qed.

Section ReturnedText.
Variable U : unicode_db.

(** The lines of the surviving pages begin with a marker and end with
    the empty line of the last block. *)
Lemma blocks_from_shape (pages : list page_text) : forall n,
  existsb yields_text pages = true ->
  exists m s rest init last,
    blocks_from U n pages = page_marker m :: s :: rest
    /\ blocks_from U n pages = init ++ [last; []].
Proof.
  induction pages as [|page pages IH]; intros n Hy; [discriminate|].
  rewrite blocks_from_cons. cbn [existsb] in Hy.
  destruct (yields_text page) eqn:Yp.
  - destruct page as [| |s]; try discriminate.
    unfold page_block. cbn [fst snd].
    destruct (existsb yields_text pages) eqn:Yr.
    + destruct (IH (S n) eq_refl) as (m & s' & rest & init & last & _ & Hl).
      exists n, (strip U s), ([] :: blocks_from U (S n) pages),
        ([page_marker n; strip U s; []] ++ init), last.
      split; [reflexivity|]. rewrite Hl. now rewrite <- app_assoc.
    + destruct (blocks_from_nil_iff U pages (S n)) as [_ Hnil].
      rewrite (Hnil Yr).
      exists n, (strip U s), [[]], [page_marker n], (strip U s).
      split; reflexivity.
  - cbn [orb app] in *. apply IH. exact Hy.
Qed.

Lemma text_described_shape (pages : list page_text) :
  existsb yields_text pages = true ->
  starts_with (lit "--- Page ") (text_described U pages) = true
  /\ exists body, text_described U pages = body ++ nl.
Proof.
  intros Hy. unfold text_described.
  destruct (blocks_from_shape pages 1 Hy)
    as (m & s & rest & init & last & Hhead & Hlast).
  split.
  - rewrite Hhead, join_cons2. unfold page_marker.
    rewrite <- !app_assoc. apply starts_with_app.
  - rewrite Hlast, join_snoc2. exists (join nl (init ++ [last])).
    now rewrite app_nil_r.
Qed.

End ReturnedText.

(** X3.  A text returned by [download_pdf] is never empty: it begins with
    a page marker and ends with a newline.  So the caller's test
    [if pdf_content] only separates a text from [None]. *)
Theorem download_pdf_text_not_empty (U : unicode_db) (E : env)
    (url : option pystr) (max_retries : Z) (h : history) (text : pystr) :
  fst (download_pdf U E url max_retries h) = Some text ->
  truthy text = true
  /\ starts_with (lit "--- Page ") text = true
  /\ exists body, text = body ++ nl.
Proof.
  intros Hres. unfold download_pdf in Hres.
  destruct url as [u|]; [|discriminate].
  destruct (truthy u); [|discriminate]. cbn [negb] in Hres.
  destruct (download_attempts_text U E u max_retries _ _ _ text Hres)
    as (pages & Hy & ->).
  destruct (text_described_shape U pages Hy) as [Hstart Hend].
  split; [|split; assumption].
  destruct (text_described U pages); [discriminate | reflexivity].
Qed.

Lemma download_pdf_text_not_empty_witness :
  truthy (text_described ascii_db three_pages) = true
  /\ starts_with (lit "--- Page ") (text_described ascii_db three_pages)
     = true
  /\ exists body, text_described ascii_db three_pages = body ++ nl.
Proof.
  apply (download_pdf_text_not_empty ascii_db fails_twice (Some sample_url)
           3 []).
  reflexivity.
Defined.

(** ** The processing loop: what is written and requested *)

Lemma written_app (evs1 evs2 : list event) :
  written (evs1 ++ evs2) = written evs1 ++ written evs2.
Proof. unfold written. apply flat_map_app. Qed.

Lemma rounds_written (url : pystr) (k : nat) :
  written (concat (repeat [EvPdfGet url; EvSleep 2] k)) = [].
Proof. induction k as [|k IH]; [reflexivity | exact IH]. Qed.

Lemma rounds_requests (url : pystr) (k : nat) :
  pdf_requests (concat (repeat [EvPdfGet url; EvSleep 2] k)) = k.
Proof.
  induction k as [|k IH]; [reflexivity|].
  cbn [repeat concat]. rewrite pdf_requests_app, IH. reflexivity.
Qed.

Section Processing.
Variable U : unicode_db.
Variable E : env.
Variable self : client.

(** The download made for a record writes nothing and sends at most
    three requests, at least one when the record has a PDF URL. *)
Lemma record_download_requests (doc : document) (h : history) :
  exists evs,
    snd ((if truthy_opt (pdf_url doc)
          then download_pdf U E (pdf_url doc) 3
          else ret None) h) = h ++ evs
    /\ written evs = []
    /\ pdf_requests evs <= 3
    /\ (truthy_opt (pdf_url doc) = true -> 1 <= pdf_requests evs).
Proof.
  destruct (truthy_opt (pdf_url doc)) eqn:T.
  - destruct (pdf_url doc) as [url|]; [|discriminate]. cbn [truthy_opt] in T.
    rewrite (download_pdf_truthy U E url 3 T).
    destruct (download_attempts_shape U E url 3 2 0%Z h) as (k & Hk & Hs);
      [reflexivity|].
    change (Z.to_nat 3) with 3. rewrite Hs. unfold after_failures.
    exists (concat (repeat [EvPdfGet url; EvSleep 2] k) ++ [EvPdfGet url]).
    rewrite <- app_assoc, written_app, rounds_written, pdf_requests_app,
      rounds_requests.
    repeat split; cbn; lia.
  - exists []. cbn. rewrite app_nil_r. repeat split; [lia | discriminate].
Qed.

(** The loop writes one file per record, in order, whatever the
    downloads and the writes do. *)
Lemma process_loop_trace (docs : list document) :
  forall i total success_count h,
  exists evs,
    snd (process_loop U E self i total docs success_count h) = h ++ evs
    /\ written evs = map (target U self) docs
    /\ pdf_requests evs <= 3 * length docs
    /\ (Forall (fun doc => truthy_opt (pdf_url doc) = true) docs ->
        length docs <= pdf_requests evs).
Proof.
  induction docs as [|doc rest IH]; intros i total success_count h.
  - exists []. cbn. rewrite app_nil_r. repeat split; lia.
  - rewrite process_loop_step. cbv zeta.
    destruct (record_download_requests doc h)
      as (evs1 & Hh1 & Hw1 & Hr1 & Hmin1).
    set (r1 := (if truthy_opt (pdf_url doc)
                then download_pdf U E (pdf_url doc) 3 else ret None) h) in *.
    unfold save_document. cbn [fst snd]. rewrite Hh1.
    set (filename := filename_of U _ _).
    set (body := document_text_of doc (fst r1) (now E (h ++ evs1))).
    set (ok := write_ok E (h ++ evs1) (output_dir self) filename body).
    set (wait := if i <? total then [EvSleep 2] else []).
    assert (Hh3 : (if i <? total return history
                   then ((h ++ evs1)
                           ++ [EvWrite (output_dir self) filename body ok])
                          ++ [EvSleep 2]
                   else (h ++ evs1)
                          ++ [EvWrite (output_dir self) filename body ok])
                  = h ++ evs1
                      ++ [EvWrite (output_dir self) filename body ok] ++ wait).
    { unfold wait. destruct (i <? total); rewrite <- ?app_assoc;
        [reflexivity | now rewrite app_nil_r]. }
    rewrite Hh3.
    destruct (IH (S i) total (if ok then S success_count else success_count)
                (h ++ evs1
                   ++ [EvWrite (output_dir self) filename body ok] ++ wait))
      as (evs2 & -> & Hw2 & Hr2 & Hmin2).
    exists (evs1 ++ [EvWrite (output_dir self) filename body ok]
              ++ wait ++ evs2).
    assert (Hww : written wait = [] /\ pdf_requests wait = 0)
      by (unfold wait; destruct (i <? total); split; reflexivity).
    destruct Hww as [Hww Hwr].
    split; [now rewrite <- !app_assoc|].
    split; [|split].
    + rewrite !written_app, Hw1, Hww, Hw2. reflexivity.
    + rewrite !pdf_requests_app, Hwr. cbn [length].
      change (pdf_requests [EvWrite (output_dir self) filename body ok])
        with 0. lia.
    + intros Hall. inversion Hall as [|? ? Hd Hrest]; subst.
      specialize (Hmin1 Hd). specialize (Hmin2 Hrest).
      rewrite !pdf_requests_app, Hwr. cbn [length].
      change (pdf_requests [EvWrite (output_dir self) filename body ok])
        with 0. lia.
Qed.

Lemma process_trace (docs : list document) (h : history) :
  exists evs,
    snd (process U E self docs h) = h ++ evs
    /\ written evs = map (target U self) docs
    /\ pdf_requests evs <= 3 * length docs
    /\ (Forall (fun doc => truthy_opt (pdf_url doc) = true) docs ->
        length docs <= pdf_requests evs).
Proof.
  destruct docs as [|doc rest].
  - exists []. cbn. rewrite app_nil_r. repeat split; lia.
  - unfold process, bind.
    destruct (process_loop_trace (doc :: rest) 1 (length (doc :: rest)) 0 h)
      as (evs & Hs & Hrest).
    destruct (process_loop U E self 1 (length (doc :: rest)) (doc :: rest) 0 h)
      as [n h'].
    cbn [snd] in *. exists evs. split; [exact Hs | exact Hrest].
Qed.


End Processing.

(** ** The runs: files written, requests sent *)

Lemma written_quiet (evs : list event) :
  Forall quiet evs -> written evs = [] /\ pdf_requests evs = 0.
Proof.
  induction 1 as [|e evs He _ [IHw IHr]]; [split; reflexivity|].
  destruct e as [| | |n|]; try contradiction; split; assumption.
Qed.

Section RunTraces.
Variable U : unicode_db.
Variable E : env.
Variable self : client.

(** Whatever [max_docs] is, the records returned by a search passed the
    filter. *)
Lemma search_documents_qualify (term : pystr) (h : history) :
  Forall (fun doc => qualifies U doc = true)
    (fst (search_documents U E self term h)).
Proof.
  rewrite search_documents_cases. cbn [fst].
  destruct (api_reply_of E h term (Z.min (max_docs self) 100));
    try constructor.
  unfold slice_to. destruct (0 <=? max_docs self)%Z;
    apply Forall_firstn, Forall_forall;
    intros doc Hin; now apply filter_In in Hin.
Qed.

Lemma qualifies_pdf_url (docs : list document) :
  Forall (fun doc => qualifies U doc = true) docs ->
  Forall (fun doc => truthy_opt (pdf_url doc) = true) docs.
Proof.
  apply Forall_impl. intros doc Hq. unfold qualifies in Hq.
  now apply andb_true_iff in Hq as [Hp _].
Qed.

Lemma term_results_qualify (terms : list pystr) : forall h,
  Forall (Forall (fun doc => qualifies U doc = true))
    (term_results U E self terms h).
Proof.
  induction terms as [|term rest IH]; intros h; [constructor|].
  cbn [term_results].
  pose proof (search_documents_qualify term h) as Hq.
  destruct (search_documents U E self term h) as [documents h'].
  constructor; [exact Hq | apply IH].
Qed.

Lemma merge_loop_incl (documents : list document) : forall all_documents kv,
  In kv (merge_loop documents all_documents) ->
  In kv all_documents \/ In (snd kv) documents.
Proof.
  induction documents as [|doc rest IH]; intros d kv Hin; [now left|].
  cbn [merge_loop] in Hin.
  destruct (document_number doc) as [id|].
  - destruct (truthy id && negb (dict_mem id d)).
    + destruct (IH _ _ Hin) as [H|H]; [|right; now right].
      apply in_app_or in H as [H|[H|[]]]; [now left|].
      subst kv. right. now left.
    + destruct (IH _ _ Hin) as [H|H]; [now left | right; now right].
  - destruct (IH _ _ Hin) as [H|H]; [now left | right; now right].
Qed.

Lemma collect_from_incl (results : list (list document)) :
  forall all_documents kv,
  In kv (collect_from all_documents results) ->
  In kv all_documents \/ In (snd kv) (concat results).
Proof.
  induction results as [|documents rest IH]; intros d kv Hin; [now left|].
  cbn [collect_from fold_left] in Hin.
  fold (collect_from (merge_loop documents d) rest) in Hin.
  cbn [concat]. rewrite in_app_iff.
  destruct (IH _ _ Hin) as [H|H]; [|auto].
  destruct (merge_loop_incl _ _ _ H); auto.
Qed.

(** The collected records were returned by a search. *)
Lemma collected_from_results (h : history) (doc : document) :
  In doc (dict_values (fst (terms_loop U E self search_terms [] h))) ->
  In doc (concat (term_results U E self search_terms h)).
Proof.
  destruct (terms_loop_collects U E self search_terms [] h)
    as (evs & -> & _).
  cbn [fst]. unfold dict_values. rewrite in_map_iff.
  intros (kv & <- & Hin).
  destruct (collect_from_incl _ _ _ Hin) as [[]|H]. exact H.
Qed.

Lemma collected_qualify (h : history) :
  Forall (fun doc => qualifies U doc = true)
    (dict_values (fst (terms_loop U E self search_terms [] h))).
Proof.
  apply Forall_forall. intros doc Hin.
  apply collected_from_results, in_concat in Hin as (docs & Hdocs & Hdoc).
  pose proof (term_results_qualify search_terms h) as Hall.
  rewrite Forall_forall in Hall. specialize (Hall docs Hdocs).
  rewrite Forall_forall in Hall. now apply Hall.
Qed.

(** [run]: one request to the API, then the processing of what the search
    returned. *)
Lemma run_trace (term : pystr) (h : history) :
  exists evs,
    snd (run U E self term h)
    = h ++ [EvApiGet term (Z.min (max_docs self) 100)] ++ evs
    /\ written evs
       = map (target U self) (fst (search_documents U E self term h))
    /\ length (fst (search_documents U E self term h)) <= pdf_requests evs
    /\ pdf_requests evs
       <= 3 * length (fst (search_documents U E self term h)).
Proof.
  pose proof (qualifies_pdf_url _ (search_documents_qualify term h)) as Hq.
  unfold run, bind. revert Hq. rewrite search_documents_cases. cbn [fst].
  set (documents := match api_reply_of E h term _ with
                    | ApiJson _ => _ | _ => [] end).
  intros Hq.
  destruct (process_trace U E self documents
              (h ++ [EvApiGet term (Z.min (max_docs self) 100)]))
    as (evs & -> & Hw & Hmax & Hmin).
  exists evs. rewrite <- app_assoc. repeat split; auto.
Qed.

(** [run_comprehensive_search]: the term loop, then the processing of the
    collected records. *)
Lemma run_comprehensive_search_trace (h : history) :
  let final := dict_values (fst (terms_loop U E self search_terms [] h)) in
  exists quiet_evs evs,
    Forall quiet quiet_evs
    /\ snd (run_comprehensive_search U E self h) = h ++ quiet_evs ++ evs
    /\ written evs = map (target U self) final
    /\ length final <= pdf_requests evs
    /\ pdf_requests evs <= 3 * length final.
Proof.
  cbv zeta.
  pose proof (qualifies_pdf_url _ (collected_qualify h)) as Hq.
  unfold run_comprehensive_search, bind. revert Hq.
  destruct (terms_loop_collects U E self search_terms [] h)
    as (qevs & -> & Hquiet).
  cbn [fst]. intros Hq.
  destruct (process_trace U E self
              (dict_values
                 (collect_from [] (term_results U E self search_terms h)))
              (h ++ qevs)) as (evs & -> & Hw & Hmax & Hmin).
  exists qevs, evs. rewrite <- app_assoc. repeat split; auto.
Qed.

End RunTraces.

(** X4.  Both runs write exactly one file per record they process, in the
    order of the records: the single-term run for the records its search
    returned, the comprehensive run for the collected records.  A failed
    download or a failed write of one record does not stop the others. *)
Theorem runs_write_each_record_once (U : unicode_db) (E : env)
    (self : client) (h : history) :
  (forall term,
     written (events_since h (snd (run U E self term h)))
     = map (target U self) (fst (search_documents U E self term h)))
  /\ written (events_since h (snd (run_comprehensive_search U E self h)))
     = map (target U self)
         (dict_values (fst (terms_loop U E self search_terms [] h))).
Proof.
  split.
  - intros term. destruct (run_trace U E self term h) as (evs & -> & Hw & _).
    rewrite events_since_app, written_app. exact Hw.
  - destruct (run_comprehensive_search_trace U E self h)
      as (qevs & evs & Hq & -> & Hw & _).
    rewrite events_since_app, written_app.
    destruct (written_quiet qevs Hq) as [-> _]. exact Hw.
Qed.

(** X5.  Every record a run processes costs at least one and at most
    three PDF requests: the records come from a search, so each has a PDF
    URL, and a download stops after three attempts. *)
Theorem runs_request_each_pdf (U : unicode_db) (E : env) (self : client)
    (h : history) :
  (forall term,
     let evs := events_since h (snd (run U E self term h)) in
     length (written evs) <= pdf_requests evs
     /\ pdf_requests evs <= 3 * length (written evs))
  /\ (let evs := events_since h (snd (run_comprehensive_search U E self h)) in
      length (written evs) <= pdf_requests evs
      /\ pdf_requests evs <= 3 * length (written evs)).
Proof.
  split.
  - intros term. cbv zeta.
    destruct (run_trace U E self term h) as (evs & -> & Hw & Hmin & Hmax).
    rewrite events_since_app, written_app, pdf_requests_app.
    cbn [written flat_map app]. fold (written evs).
    rewrite Hw, length_map.
    change (pdf_requests [EvApiGet term (Z.min (max_docs self) 100)]) with 0.
    lia.
  - cbv zeta.
    destruct (run_comprehensive_search_trace U E self h)
      as (qevs & evs & Hq & -> & Hw & Hmin & Hmax).
    rewrite events_since_app, written_app, pdf_requests_app.
    destruct (written_quiet qevs Hq) as [-> ->].
    cbn [app]. rewrite Hw, length_map. lia.
Qed.

Section RunEnds.
Variable U : unicode_db.
Variable E : env.
Variable self : client.


Lemma run_unfold (term : pystr) (h : history) :
  run U E self term h
  = process U E self (fst (search_documents U E self term h))
      (snd (search_documents U E self term h)).
Proof.
  unfold run, bind. now destruct (search_documents U E self term h).
Qed.

Lemma run_comprehensive_search_unfold (h : history) :
  run_comprehensive_search U E self h
  = process U E self
      (dict_values (fst (terms_loop U E self search_terms [] h)))
      (snd (terms_loop U E self search_terms [] h)).
Proof.
  unfold run_comprehensive_search, bind.
  now destruct (terms_loop U E self search_terms [] h).
Qed.

End RunEnds.



(** X7.  When the API answers and [max_docs] is not negative, the
    single-term run writes as many files as there are qualifying records,
    up to [max_docs]. *)
Theorem run_writes_up_to_max_docs (U : unicode_db) (E : env) (self : client)
    (term : pystr) (h : history) (data : api_json) :
  (0 <= max_docs self)%Z ->
  api_reply_of E h term (Z.min (max_docs self) 100) = ApiJson data ->
  length (written (events_since h (snd (run U E self term h))))
  = Nat.min (Z.to_nat (max_docs self))
      (length (filter (qualifies U)
                 (match json_results data with
                  | Some rs => rs | None => [] end))).
Proof.
  intros Hn Hreply.
  destruct (run_trace U E self term h) as (evs & -> & Hw & _).
  rewrite events_since_app, written_app. cbn [written flat_map app].
  fold (written evs). rewrite Hw, length_map.
  rewrite search_documents_cases, Hreply. cbn [fst].
  rewrite slice_to_nonneg by assumption. apply length_firstn.
Qed.

Lemma run_writes_up_to_max_docs_witness :
  length (written
            (events_since []
               (snd (run ascii_db five_results (sample_client 1)
                       (lit "artificial intelligence") []))))
  = Nat.min 1 3.
Proof.
  apply (run_writes_up_to_max_docs ascii_db five_results (sample_client 1)
           (lit "artificial intelligence") []
           {| json_results :=
                Some [doc_upper; doc_no_pdf; doc_off_topic; doc_lower;
                      doc_third];
              json_other_keys := true |}).
  - vm_compute. discriminate.
  - reflexivity.
Defined.

(** ** [max_docs] at and below zero *)

Section MaxDocsEdge.
Variable U : unicode_db.
Variable E : env.
Variable self : client.

Lemma search_documents_zero (term : pystr) (h : history) :
  max_docs self = 0%Z ->
  fst (search_documents U E self term h) = [].
Proof.
  intros H0. rewrite search_documents_cases. cbn [fst]. rewrite H0.
  now destruct (api_reply_of E h term (Z.min 0 100)).
Qed.

Lemma term_results_zero (terms : list pystr) : forall h,
  max_docs self = 0%Z ->
  Forall (fun documents => documents = [])
    (term_results U E self terms h).
Proof.
  induction terms as [|term rest IH]; intros h H0; [constructor|].
  cbn [term_results].
  pose proof (search_documents_zero term h H0) as Hs.
  destruct (search_documents U E self term h) as [documents h'].
  constructor; [exact Hs | now apply IH].
Qed.

Lemma collect_from_nothing (results : list (list document)) :
  forall all_documents,
  Forall (fun documents => documents = []) results ->
  collect_from all_documents results = all_documents.
Proof.
  induction results as [|documents rest IH]; intros d Hall; [reflexivity|].
  inversion Hall as [|? ? Hd Hrest]; subst.
  cbn [collect_from fold_left merge_loop]. now apply IH.
Qed.

End MaxDocsEdge.

(** X8.  With [--max-docs 0] nothing is ever downloaded or written and
    the exit code is 1, in both modes and whatever the API answers: the
    slice [[:0]] empties every search result. *)
Theorem max_docs_zero_writes_nothing (U : unicode_db) (E : env) (a : args)
    (h : history) :
  arg_max_docs a = 0%Z ->
  fst (main U E a h) = 1%Z
  /\ written (events_since h (snd (main U E a h))) = []
  /\ pdf_requests (events_since h (snd (main U E a h))) = 0.
Proof.
  intros H0. unfold main.
  set (h1 := h ++ [EvMkdir (arg_output a) (mkdir_ok E h (arg_output a))]).
  set (self := {| output_dir := arg_output a; max_docs := arg_max_docs a |}).
  destruct (mkdir_ok E h (arg_output a)) eqn:Hm; cbn [negb];
    [|unfold h1; cbn [fst snd]; rewrite events_since_app; now repeat split].
  unfold bind, ret.
  destruct (arg_comprehensive a).
  - rewrite run_comprehensive_search_unfold.
    destruct (terms_loop_collects U E self search_terms [] h1)
      as (qevs & -> & Hq).
    cbn [fst snd].
    rewrite (collect_from_nothing _ []
               (term_results_zero U E self search_terms h1 H0)).
    cbn [dict_values map process]. unfold ret. cbn [fst snd].
    unfold h1. rewrite <- app_assoc, events_since_app.
    destruct (written_quiet qevs Hq) as [Hw Hr].
    rewrite written_app, pdf_requests_app, Hw, Hr. now repeat split.
  - rewrite run_unfold.
    rewrite (search_documents_zero U E self (arg_term a) h1 H0).
    rewrite search_documents_cases. cbn [snd process]. unfold ret.
    cbn [fst snd]. unfold h1. rewrite <- app_assoc, events_since_app.
    now repeat split.
Qed.

Lemma max_docs_zero_writes_nothing_witness :
  let a := {| arg_term := lit "artificial intelligence";
              arg_output := lit "corpus";
              arg_max_docs := 0;
              arg_comprehensive := true |} in
  fst (main ascii_db five_results a []) = 1%Z
  /\ written (events_since [] (snd (main ascii_db five_results a []))) = []
  /\ pdf_requests (events_since [] (snd (main ascii_db five_results a [])))
     = 0.
Proof.
  cbv zeta.
  apply (max_docs_zero_writes_nothing ascii_db five_results
           {| arg_term := lit "artificial intelligence";
              arg_output := lit "corpus";
              arg_max_docs := 0;
              arg_comprehensive := true |} []).
  reflexivity.
Defined.

(** X9.  With a negative [max_docs] the slice [[:max_docs]] counts from
    the end: the search returns the qualifying records except the last
    [-max_docs] of them, not an empty list. *)
Theorem search_documents_negative_max_docs (U : unicode_db) (E : env)
    (self : client) (term : pystr) (h : history) (data : api_json) :
  (max_docs self < 0)%Z ->
  api_reply_of E h term (Z.min (max_docs self) 100) = ApiJson data ->
  let passed :=
    filter (qualifies U)
      (match json_results data with Some rs => rs | None => [] end) in
  fst (search_documents U E self term h)
  = firstn (length passed - Z.to_nat (- max_docs self)) passed.
Proof.
  intros Hn Hreply passed.
  rewrite search_documents_cases, Hreply. cbn [fst]. unfold slice_to.
  destruct (0 <=? max_docs self)%Z eqn:Le; [|reflexivity].
  apply Z.leb_le in Le. lia.
Qed.

Lemma search_documents_negative_max_docs_witness :
  fst (search_documents ascii_db five_results (sample_client (-1))
         (lit "artificial intelligence") [])
  = firstn (3 - 1) [doc_upper; doc_lower; doc_third].
Proof.
  apply (search_documents_negative_max_docs ascii_db five_results
           (sample_client (-1)) (lit "artificial intelligence") []
           {| json_results :=
                Some [doc_upper; doc_no_pdf; doc_off_topic; doc_lower;
                      doc_third];
              json_other_keys := true |}).
  - vm_compute. reflexivity.
  - reflexivity.
Defined.

(** ** The term loop *)

Lemma terms_loop_events (U : unicode_db) (E : env) (self : client)
    (terms : list pystr) :
  forall all_documents h,
  snd (terms_loop U E self terms all_documents h)
  = h ++ term_events (Z.min (max_docs self) 100) terms.
Proof.
  induction terms as [|term rest IH]; intros d h.
  - cbn. now rewrite app_nil_r.
  - cbn [terms_loop term_events flat_map]. unfold bind at 1.
    rewrite search_documents_cases. unfold bind at 1, sleep, emit.
    rewrite IH. unfold term_events. now rewrite <- !app_assoc.
Qed.

(** X10.  The comprehensive run first sends one API request per search
    term, in the order of the list, each with page size
    [min(max_docs, 100)] and each followed by a 1-second wait, whatever
    the API answers (a failed search does not stop the loop); no other
    API request is sent afterwards. *)
Theorem comprehensive_run_queries_each_term (U : unicode_db) (E : env)
    (self : client) (h : history) :
  let per_page := Z.min (max_docs self) 100 in
  (per_page <= 100)%Z
  /\ snd (terms_loop U E self search_terms [] h)
     = h ++ flat_map (fun term => [EvApiGet term per_page; EvSleep 1])
              (map lit
                 ["artificial intelligence"; "machine learning";
                  "AI safety"; "AI governance";
                  "algorithmic accountability";
                  "automated decision making"; "neural networks";
                  "deep learning"]%string)
  /\ exists evs,
       snd (run_comprehensive_search U E self h)
       = snd (terms_loop U E self search_terms [] h) ++ evs
       /\ Forall (fun e => match e with
                           | EvApiGet _ _ => False
                           | _ => True
                           end) evs.
Proof.
  cbv zeta. split; [lia|]. split; [apply terms_loop_events|].
  destruct (run_comprehensive_search_events U E self h)
    as (qevs & evs & _ & _ & Hrun & Hev & _).
  exists evs. rewrite Hrun. split; [reflexivity|].
  eapply Forall_impl; [|exact Hev].
  intros e (doc & _ & He). destruct e; try exact I. exact He.
Qed.

(** ** The collected records *)

Lemma NoDup_map_Some {A} (l : list A) : NoDup l -> NoDup (map Some l).
Proof.
  induction 1 as [|a l Ha Hl IH]; cbn [map]; constructor; [|exact IH].
  rewrite in_map_iff. intros (b & Hb & Hin). injection Hb as ->. contradiction.
Qed.

Lemma keyed_numbers (d : dict) :
  keyed d -> map document_number (dict_values d) = map Some (map fst d).
Proof.
  intros [_ Hall]. unfold dict_values. rewrite !map_map.
  apply map_ext_in. intros kv Hin. rewrite Forall_forall in Hall.
  now destruct (Hall kv Hin).
Qed.

(** X11.  The records collected by a comprehensive run have pairwise
    different document numbers; each of them was returned by one of the
    searches; and every non-empty document number returned by a search is
    the number of a collected record. *)
Theorem collection_has_each_number_once (U : unicode_db) (E : env)
    (self : client) (h : history) :
  let results := term_results U E self search_terms h in
  let final := dict_values (fst (terms_loop U E self search_terms [] h)) in
  NoDup (map document_number final)
  /\ (forall doc, In doc final -> In doc (concat results))
  /\ (forall doc,
        In doc (concat results) ->
        truthy_opt (document_number doc) = true ->
        exists kept,
          In kept final /\ document_number kept = document_number doc).
Proof.
  cbv zeta.
  assert (Hkeyed : keyed (collect_from []
                            (term_results U E self search_terms h)))
    by (apply collect_from_keyed, keyed_nil).
  split; [|split].
  - destruct (terms_loop_collects U E self search_terms [] h)
      as (evs & -> & _).
    cbn [fst]. rewrite (keyed_numbers _ Hkeyed).
    apply NoDup_map_Some. now destruct Hkeyed.
  - intros doc. apply collected_from_results.
  - intros doc Hin Hnum.
    destruct (terms_loop_collects U E self search_terms [] h)
      as (evs & -> & _).
    cbn [fst].
    destruct (document_number doc) as [id|] eqn:Hid; [|discriminate].
    cbn [truthy_opt] in Hnum.
    pose proof (collect_from_get id (term_results U E self search_terms h)
                  Hnum []) as Hget.
    cbn [dict_get find] in Hget.
    destruct (find (has_id id)
                (concat (term_results U E self search_terms h)))
      as [first|] eqn:Hfind.
    + cbn [option_map] in Hget. apply find_some in Hget as [Hkv _].
      exists first. split.
      * unfold dict_values. apply in_map_iff. now exists (id, first).
      * destruct Hkeyed as [_ Hall]. rewrite Forall_forall in Hall.
        now destruct (Hall _ Hkv).
    + exfalso.
      pose proof (find_none _ _ Hfind doc Hin) as Hno.
      rewrite (has_id_number id doc id Hid), str_eqb_refl in Hno.
      discriminate.
Qed.

Section CollectionSize.
Variable U : unicode_db.
Variable E : env.
Variable self : client.

Lemma merge_loop_length (documents : list document) : forall all_documents,
  length (merge_loop documents all_documents)
  <= length all_documents + length documents.
Proof.
  induction documents as [|doc rest IH]; intros d; [cbn; lia|].
  cbn [merge_loop length]. destruct (document_number doc) as [id|].
  - destruct (truthy id && negb (dict_mem id d)).
    + etransitivity; [apply IH|]. rewrite length_app. cbn. lia.
    + etransitivity; [apply IH|]. lia.
  - etransitivity; [apply IH|]. lia.
Qed.

Lemma collect_from_length (m : nat) (results : list (list document)) :
  forall all_documents,
  Forall (fun documents => length documents <= m) results ->
  length (collect_from all_documents results)
  <= length all_documents + length results * m.
Proof.
  induction results as [|documents rest IH]; intros d Hall; [cbn; lia|].
  inversion Hall as [|? ? Hd Hrest]; subst.
  cbn [collect_from fold_left].
  fold (collect_from (merge_loop documents d) rest).
  etransitivity; [apply IH; exact Hrest|].
  pose proof (merge_loop_length documents d). cbn [length]. lia.
Qed.

Lemma term_results_bounded (terms : list pystr) : forall h,
  (0 <= max_docs self)%Z ->
  length (term_results U E self terms h) = length terms
  /\ Forall (fun documents => length documents <= Z.to_nat (max_docs self))
       (term_results U E self terms h).
Proof.
  induction terms as [|term rest IH]; intros h Hn;
    [split; [reflexivity | constructor]|].
  cbn [term_results].
  assert (Hs : length (fst (search_documents U E self term h))
               <= Z.to_nat (max_docs self)).
  { rewrite search_documents_cases. cbn [fst].
    destruct (api_reply_of E h term (Z.min (max_docs self) 100));
      try (cbn; lia).
    rewrite slice_to_nonneg by assumption. apply firstn_le_length. }
  destruct (search_documents U E self term h) as [documents h'].
  destruct (IH (h' ++ [EvSleep 1]) Hn) as [Hlen Hall].
  split; [cbn [length]; now rewrite Hlen | constructor; assumption].
Qed.

End CollectionSize.

(** X12.  With a non-negative [max_docs] the comprehensive run collects,
    and so writes, at most [8 * max_docs] records: at most [max_docs] per
    search term. *)
Theorem collection_size_bound (U : unicode_db) (E : env) (self : client)
    (h : history) :
  (0 <= max_docs self)%Z ->
  length (dict_values (fst (terms_loop U E self search_terms [] h)))
  <= 8 * Z.to_nat (max_docs self)
  /\ length (written
               (events_since h (snd (run_comprehensive_search U E self h))))
     <= 8 * Z.to_nat (max_docs self).
Proof.
  intros Hn.
  assert (Hlen : length (dict_values
                           (fst (terms_loop U E self search_terms [] h)))
                 <= 8 * Z.to_nat (max_docs self)).
  { destruct (terms_loop_collects U E self search_terms [] h)
      as (evs & -> & _).
    cbn [fst]. unfold dict_values. rewrite length_map.
    destruct (term_results_bounded U E self search_terms h Hn)
      as [Hterms Hall].
    pose proof (collect_from_length _ _ [] Hall) as Hc.
    rewrite Hterms in Hc. cbn [length] in Hc.
    change (length search_terms) with 8 in Hc. lia. }
  split; [exact Hlen|].
  destruct (run_comprehensive_search_trace U E self h)
    as (qevs & evs & Hq & -> & Hw & _).
  rewrite events_since_app, written_app.
  destruct (written_quiet qevs Hq) as [-> _]. cbn [app].
  now rewrite Hw, length_map.
Qed.

Lemma collection_size_bound_witness :
  length (dict_values
            (fst (terms_loop ascii_db five_results (sample_client 1)
                    search_terms [] [])))
  <= 8 * Z.to_nat 1
  /\ length (written
               (events_since []
                  (snd (run_comprehensive_search ascii_db five_results
                          (sample_client 1) []))))
     <= 8 * Z.to_nat 1.
Proof.
  apply (collection_size_bound ascii_db five_results (sample_client 1) []).
  vm_compute. discriminate.
Defined.

(** ** More on the safe file name *)

Section Sanitizer.
Variable U : unicode_db.

(** A prefix of a collapsed string is left as it is by [collapse]. *)
Lemma collapse_from_prefix_fixed (s : pystr) : forall in_run n,
  collapse_from U in_run (firstn n (collapse_from U in_run s))
  = firstn n (collapse_from U in_run s).
Proof.
  induction s as [|c r IH]; intros in_run n.
  - cbn. now rewrite firstn_nil.
  - cbn [collapse_from]. destruct (is_sep U c) eqn:S.
    + destruct in_run; [apply IH|].
      destruct n as [|n]; [reflexivity|].
      cbn [firstn collapse_from].
      change (is_sep U hyphen) with true. cbn iota. now rewrite IH.
    + destruct n as [|n]; [now destruct in_run|].
      cbn [firstn collapse_from]. rewrite S. now rewrite IH.
Qed.

Lemma filter_all {A} (f : A -> bool) (l : list A) :
  Forall (fun x => f x = true) l -> filter f l = l.
Proof.
  induction 1 as [|a l Ha _ IH]; [reflexivity|].
  cbn [filter]. now rewrite Ha, IH.
Qed.

Lemma filename_char_kept (c : char) :
  filename_char U c = true -> keep_char U c = true.
Proof.
  unfold filename_char, keep_char. intros H.
  apply orb_true_iff in H as [-> | ->]; [reflexivity | apply orb_true_r].
Qed.

(** All separators of a run collapse with what precedes them. *)
Lemma collapse_from_run (run rest : pystr) :
  forallb (is_sep U) run = true ->
  collapse_from U true (run ++ rest) = collapse_from U true rest.
Proof.
  induction run as [|c run IH]; intros Hrun; [reflexivity|].
  cbn [forallb] in Hrun. apply andb_true_iff in Hrun as [Hc Hrun].
  cbn [app collapse_from]. rewrite Hc. now apply IH.
Qed.

(** A non-empty run of separators counts as one hyphen, wherever it is. *)
Lemma collapse_from_any_run (before run after : pystr) : forall in_run,
  run <> [] ->
  forallb (is_sep U) run = true ->
  collapse_from U in_run (before ++ run ++ after)
  = collapse_from U in_run (before ++ [hyphen] ++ after).
Proof.
  induction before as [|c before IH]; intros in_run Hne Hrun.
  - destruct run as [|c run]; [contradiction|].
    cbn [forallb] in Hrun. apply andb_true_iff in Hrun as [Hc Hrun].
    cbn [app collapse_from]. rewrite Hc.
    change (is_sep U hyphen) with true. cbn iota.
    now rewrite (collapse_from_run run after Hrun).
  - cbn [app collapse_from].
    destruct (is_sep U c); [destruct in_run|]; now rewrite IH.
Qed.

Lemma sep_kept (run : pystr) :
  forallb (is_sep U) run = true -> filter (keep_char U) run = run.
Proof.
  intros Hrun. apply filter_all, Forall_forall. intros c Hin.
  rewrite forallb_forall in Hrun. specialize (Hrun c Hin).
  unfold is_sep in Hrun. unfold keep_char.
  apply orb_true_iff in Hrun as [-> | ->];
    [apply orb_true_r | now rewrite orb_true_r].
Qed.

Lemma dropped_filtered (junk : pystr) :
  forallb (fun c => negb (keep_char U c)) junk = true ->
  filter (keep_char U) junk = [].
Proof.
  induction junk as [|c junk IH]; intros Hj; [reflexivity|].
  cbn [forallb] in Hj. apply andb_true_iff in Hj as [Hc Hj].
  cbn [filter]. apply negb_true_iff in Hc. rewrite Hc. now apply IH.
Qed.

End Sanitizer.

(** X13.  Sanitizing is idempotent: the safe title of a safe title is
    that safe title, so a name derived once is stable. *)
Theorem safe_title_idempotent (U : unicode_db) (title : pystr) :
  safe_title_of U (safe_title_of U title) = safe_title_of U title.
Proof.
  pose proof (safe_title_chars U title) as Hchars.
  unfold safe_title_of at 1. unfold strip_unsafe at 1.
  rewrite filter_all
    by (eapply Forall_impl; [apply filename_char_kept | exact Hchars]).
  unfold safe_title_of, collapse.
  rewrite collapse_from_prefix_fixed.
  rewrite firstn_firstn. reflexivity.
Qed.

(** X14.  Titles that differ only in characters the sanitizer removes, or
    only in which white space and hyphens stand between two parts, get
    the same file name for the same date (in one output directory the
    later write replaces the earlier file). *)
Theorem filename_ignores_punctuation_and_spacing (U : unicode_db)
    (date before after junk run1 run2 : pystr) :
  forallb (fun c => negb (keep_char U c)) junk = true ->
  run1 <> [] -> forallb (is_sep U) run1 = true ->
  run2 <> [] -> forallb (is_sep U) run2 = true ->
  filename_of U date (before ++ junk ++ after)
  = filename_of U date (before ++ after)
  /\ filename_of U date (before ++ run1 ++ after)
     = filename_of U date (before ++ run2 ++ after).
Proof.
  intros Hjunk Hne1 Hrun1 Hne2 Hrun2.
  unfold filename_of, safe_title_of, strip_unsafe, collapse.
  rewrite !filter_app, (dropped_filtered U junk Hjunk),
    (sep_kept U run1 Hrun1), (sep_kept U run2 Hrun2).
  cbn [app].
  rewrite (collapse_from_any_run U _ run1 _ false Hne1 Hrun1),
    (collapse_from_any_run U _ run2 _ false Hne2 Hrun2).
  split; reflexivity.
Qed.

Lemma filename_ignores_punctuation_and_spacing_witness :
  filename_of ascii_db (lit "2024-01-02") (lit "AI" ++ lit ":" ++ lit " Safety")
  = filename_of ascii_db (lit "2024-01-02") (lit "AI" ++ lit " Safety")
  /\ filename_of ascii_db (lit "2024-01-02")
       (lit "AI" ++ lit " - " ++ lit "Safety")
     = filename_of ascii_db (lit "2024-01-02")
         (lit "AI" ++ lit "  " ++ lit "Safety").
Proof.
  split.
  - apply (filename_ignores_punctuation_and_spacing ascii_db
             (lit "2024-01-02") (lit "AI") (lit " Safety") (lit ":")
             (lit " ") (lit "-"));
      (reflexivity || discriminate).
  - apply (filename_ignores_punctuation_and_spacing ascii_db
             (lit "2024-01-02") (lit "AI") (lit "Safety") []
             (lit " - ") (lit "  "));
      (reflexivity || discriminate).
Defined.

(** ** More on the keyword filter *)

Section Keywords.
Variable U : unicode_db.

Lemma lower_suffix (pre mid : pystr) :
  forallb is_ascii mid = true ->
  exists pre', lower U (pre ++ mid) = pre' ++ map ascii_lower mid.
Proof.
  intros Hmid. unfold lower.
  rewrite lower_from_app, (lower_from_ascii U _ mid) by assumption. eauto.
Qed.

Lemma lower_prefix (mid post : pystr) :
  forallb is_ascii mid = true ->
  exists post', lower U (mid ++ post) = map ascii_lower mid ++ post'.
Proof.
  intros Hmid. unfold lower.
  rewrite lower_from_app, (lower_from_ascii U _ mid) by assumption. eauto.
Qed.

Lemma ai_related_abstract (doc : document) (keyword pre mid post : pystr) :
  In keyword ai_keywords ->
  forallb is_ascii mid = true ->
  map ascii_lower mid = keyword ->
  abstract doc = Some (pre ++ mid ++ post) ->
  ai_related U doc = true.
Proof.
  intros Hin Hascii Hlow Habs. unfold ai_related.
  apply existsb_exists. exists keyword. split; [exact Hin|].
  unfold content_of. rewrite Habs. cbn [or_empty].
  destruct (lower_infix U pre mid post Hascii) as (pre' & post' & ->).
  rewrite Hlow.
  replace (lower U (or_empty (title doc)) ++ lit " "
             ++ pre' ++ keyword ++ post')
    with ((lower U (or_empty (title doc)) ++ lit " " ++ pre')
            ++ keyword ++ post')
    by now rewrite <- !app_assoc.
  apply contains_infix.
Qed.

End Keywords.

(** X15.  The keyword test is a substring test that ignores letter case,
    for every keyword and in both fields: a record with a PDF URL whose
    title or abstract contains, anywhere (also inside a longer word), a
    stretch of ASCII text that lower-cases to one of the keywords
    qualifies. *)
Theorem keyword_in_title_or_abstract (U : unicode_db) (doc : document)
    (keyword pre mid post : pystr) :
  In keyword ai_keywords ->
  forallb is_ascii mid = true ->
  map ascii_lower mid = keyword ->
  truthy_opt (pdf_url doc) = true ->
  title doc = Some (pre ++ mid ++ post)
  \/ abstract doc = Some (pre ++ mid ++ post) ->
  qualifies U doc = true.
Proof.
  intros Hin Hascii Hlow Hpdf [Ht | Ha]; unfold qualifies; rewrite Hpdf;
    cbn [andb].
  - now apply (ai_related_title U doc keyword pre mid post).
  - now apply (ai_related_abstract U doc keyword pre mid post).
Qed.

Lemma keyword_in_title_or_abstract_witness :
  qualifies ascii_db
    (sample_doc "ALGORITHMICALLY Sorted Mail" (Some sample_url) None)
  = true.
Proof.
  apply (keyword_in_title_or_abstract ascii_db _ (lit "algorithmic") []
           (lit "ALGORITHMIC") (lit "ALLY Sorted Mail")).
  - vm_compute. auto 10.
  - reflexivity.
  - reflexivity.
  - reflexivity.
  - left. reflexivity.
Defined.

(** X16.  Title and abstract are tested as one text, joined by a space:
    a keyword of two parts separated by a space also matches when the
    title ends with the first part and the abstract begins with the
    second. *)
Theorem keyword_across_title_and_abstract (U : unicode_db) (doc : document)
    (pre part1 part2 post : pystr) :
  In (map ascii_lower part1 ++ lit " " ++ map ascii_lower part2)
     ai_keywords ->
  forallb is_ascii part1 = true ->
  forallb is_ascii part2 = true ->
  title doc = Some (pre ++ part1) ->
  abstract doc = Some (part2 ++ post) ->
  ai_related U doc = true.
Proof.
  intros Hin H1 H2 Ht Ha. unfold ai_related.
  apply existsb_exists.
  exists (map ascii_lower part1 ++ lit " " ++ map ascii_lower part2).
  split; [exact Hin|].
  unfold content_of. rewrite Ht, Ha. cbn [or_empty].
  destruct (lower_suffix U pre part1 H1) as (pre' & ->).
  destruct (lower_prefix U part2 post H2) as (post' & ->).
  replace ((pre' ++ map ascii_lower part1) ++ lit " "
             ++ map ascii_lower part2 ++ post')
    with (pre' ++ (map ascii_lower part1 ++ lit " " ++ map ascii_lower part2)
            ++ post')
    by now rewrite <- !app_assoc.
  apply contains_infix.
Qed.

Lemma keyword_across_title_and_abstract_witness :
  ai_related ascii_db doc_split = true
  /\ contains (lit "machine learning")
       (lower ascii_db (or_empty (title doc_split))) = false
  /\ contains (lit "machine learning")
       (lower ascii_db (or_empty (abstract doc_split))) = false.
Proof.
  split; [|split; vm_compute; reflexivity].
  apply (keyword_across_title_and_abstract ascii_db doc_split
           (lit "Safety Standards for the Washing ") (lit "Machine")
           (lit "Learning") (lit " from recent recalls, the Commission")).
  - vm_compute. auto 10.
  - reflexivity.
  - reflexivity.
  - reflexivity.
  - reflexivity.
Defined.
